(** * Sign-in lockout detection and the fingerprint gate

    A shallow embedding of [SecurityDetector] (src/functions/login/
    SecurityDetector.ts) and of the fingerprint gate of
    [Browser.createBrowser] (src/browser/Browser.ts).

    JavaScript strings that carry page text are sequences of UTF-16 code
    units ([jstring]); identifiers, selectors, labels and log messages of
    the program itself are ASCII and kept as [string].  Asynchronous calls
    into collaborators (the page, the notification helper, the bot) are
    oracles that either resolve or reject; the calls made are recorded, in
    order, in a history. *)

From Stdlib Require Import List String Ascii NArith Bool Arith Lia.
Import ListNotations.
Local Open Scope string_scope.
Local Open Scope list_scope.

Set Implicit Arguments.

(* ------------------------------------------------------------------ *)
(** ** JavaScript strings                                               *)
(* ------------------------------------------------------------------ *)

(** A string value: its UTF-16 code units. *)
Definition jstring := list N.

(** An ASCII literal of the program as a string value. *)
Definition js (s : string) : jstring := map N_of_ascii (list_ascii_of_string s).

(** WhiteSpace and LineTerminator code units, as [String.prototype.trim]
    strips them. *)
Definition is_js_whitespace (c : N) : bool :=
  ((9 <=? c) && (c <=? 13) || (c =? 32) || (c =? 160) || (c =? 5760)
   || (8192 <=? c) && (c <=? 8202) || (c =? 8232) || (c =? 8233)
   || (c =? 8239) || (c =? 8287) || (c =? 12288) || (c =? 65279))%N.

Fixpoint trimStart (s : jstring) : jstring :=
  match s with
  | c :: s' => if is_js_whitespace c then trimStart s' else s
  | [] => []
  end.

Definition trim (s : jstring) : jstring := rev (trimStart (rev (trimStart s))).

(** Lower-casing of the ASCII range. *)
Definition ascii_lower (c : N) : N :=
  if ((65 <=? c) && (c <=? 90))%N then (c + 32)%N else c.

Definition is_ascii (c : N) : bool := (c <? 128)%N.

(** [String.prototype.toLowerCase] belongs to the engine.  Outside the
    ASCII range it follows the Unicode tables (and may change the length of
    the string), so it is an interface here; on ASCII text it is
    [ascii_lower] on every unit. *)
Class JsEngine := {
  toLowerCase : jstring -> jstring;
  toLowerCase_ascii :
    forall s, forallb is_ascii s = true -> toLowerCase s = map ascii_lower s
}.

(** The engine restricted to what the ASCII range determines; used to run
    the model on concrete pages. *)
#[export, refine] Instance ascii_engine : JsEngine := {| toLowerCase := map ascii_lower |}.
Proof. reflexivity. Defined.

(* ------------------------------------------------------------------ *)
(** ** Regular expressions of the pattern table                         *)
(* ------------------------------------------------------------------ *)

(** Canonicalize of a non-unicode, ignore-case RegExp on the ASCII range:
    upper-casing.  A unit outside the ASCII range never canonicalizes into
    it, and the only non-ASCII unit of the table (U+2019) has no case, so
    comparing canonical forms of a pattern unit and a text unit is
    [ci_eq]. *)
Definition canonicalize (c : N) : N :=
  if ((97 <=? c) && (c <=? 122))%N then (c - 32)%N else c.

Definition ci_eq (p c : N) : bool := (canonicalize p =? canonicalize c)%N.

(** The table needs two forms: a literal unit, and an optional unit taken
    from a class, [[...]?]. *)
Inductive atom :=
| Chr (p : N)
| OptClass (cs : list N).

Definition regex := list atom.

Definition lit (s : string) : regex := map Chr (js s).

(** Does [re] match a prefix of [s]?  (Backtracking over the optional
    class.) *)
Fixpoint match_here (re : regex) (s : jstring) : bool :=
  match re with
  | [] => true
  | Chr p :: re' =>
      match s with
      | c :: s' => ci_eq p c && match_here re' s'
      | [] => false
      end
  | OptClass cs :: re' =>
      match s with
      | c :: s' =>
          (existsb (fun p => ci_eq p c) cs && match_here re' s')
          || match_here re' s
      | [] => match_here re' []
      end
  end.

(** [re.test(s)] for a RegExp without the g and y flags: a match starting
    anywhere, no state kept between calls. *)
Fixpoint test (re : regex) (s : jstring) : bool :=
  match_here re s
  || match s with
     | [] => false
     | _ :: s' => test re s'
     end.

Record pattern := { re : regex; label : string }.

(** U+2019, RIGHT SINGLE QUOTATION MARK *)
Definition rsquo : N := 8217.

(** SecurityDetector.ts:11-17 *)
Definition SIGN_IN_BLOCK_PATTERNS : list pattern :=
  [ {| re := lit "we can" ++ [OptClass [39%N; rsquo; 96%N]] ++ lit "t sign you in";
       label := "cant-sign-in" |};
    {| re := lit "incorrect account or password too many times";
       label := "too-many-incorrect" |};
    {| re := lit "used an incorrect account or password too many times";
       label := "too-many-incorrect-variant" |};
    {| re := lit "sign-in has been blocked";
       label := "sign-in-blocked-phrase" |};
    {| re := lit "your account has been locked";
       label := "account-locked" |} ].

(** SecurityDetector.ts:36-37, the loop with [break]: [matched] is the
    label of the first pattern that tests true, [null] otherwise. *)
Fixpoint first_match (ps : list pattern) (lower : jstring) : option string :=
  match ps with
  | [] => None
  | p :: ps' => if test (re p) lower then Some (label p) else first_match ps' lower
  end.

(** Truthiness of a [string | null]. *)
Definition truthy (m : option string) : bool :=
  match m with
  | Some s => negb (String.eqb s EmptyString)
  | None => false
  end.

(* ------------------------------------------------------------------ *)
(** ** Errors, promises and the shared bot                              *)
(* ------------------------------------------------------------------ *)

(** What can be thrown: an [Error] built by the program itself, or the
    rejection of a collaborator's promise. *)
Inductive exn :=
| JsError (message : string)
| Foreign (reason : string).

(** A settled promise of a collaborator. *)
Inductive outcome (A : Type) :=
| Resolved (a : A)
| Rejected (reason : string).
Arguments Rejected {A} reason.

(** types.ts is not among the sources; the fields are those the detector
    fills in (SecurityDetector.ts:41-47). *)
Record SecurityIncident := {
  kind : string;
  account : string;
  details : list string;
  next : list string;
  docsUrl : string
}.

(** The calls made to collaborators, oldest first. *)
Inductive event :=
| WaitForSelector (sel : string) (timeout : N)
| TextContent (sel : string)
| SendIncidentAlert (incident : SecurityIncident) (severity : string)
| StartCompromisedInterval
| EngageGlobalStandby (reason email : string)
| OpenDocsTab (url : string)
| Log (mobile : bool) (tag message level : string)
| AutoInstall
| Launch
| LoadSessionData (email : string)
| GenerateFingerprint
| LogFingerprintValidation (email : string)
| NewInjectedContext
| SetDefaultTimeout
| OnPage
| AddCookies
| SaveFingerprintData (email : string).

(** The [MicrosoftRewardsBot] fields the two classes read and write, and the
    history of calls.  [globalStandby] is what [engageGlobalStandby] latches. *)
Record World := {
  compromisedModeActive : bool;
  compromisedReason : option string;
  currentAccountEmail : option string;
  isMobile : bool;
  globalStandby : option (string * string);
  history : list event
}.

Definition set_compromisedModeActive (b : bool) (w : World) : World :=
  {| compromisedModeActive := b;
     compromisedReason := compromisedReason w;
     currentAccountEmail := currentAccountEmail w;
     isMobile := isMobile w;
     globalStandby := globalStandby w;
     history := history w |}.

Definition set_compromisedReason (r : string) (w : World) : World :=
  {| compromisedModeActive := compromisedModeActive w;
     compromisedReason := Some r;
     currentAccountEmail := currentAccountEmail w;
     isMobile := isMobile w;
     globalStandby := globalStandby w;
     history := history w |}.

Definition set_currentAccountEmail (e : option string) (w : World) : World :=
  {| compromisedModeActive := compromisedModeActive w;
     compromisedReason := compromisedReason w;
     currentAccountEmail := e;
     isMobile := isMobile w;
     globalStandby := globalStandby w;
     history := history w |}.

Definition set_globalStandby (g : string * string) (w : World) : World :=
  {| compromisedModeActive := compromisedModeActive w;
     compromisedReason := compromisedReason w;
     currentAccountEmail := currentAccountEmail w;
     isMobile := isMobile w;
     globalStandby := Some g;
     history := history w |}.

Definition record (e : event) (w : World) : World :=
  {| compromisedModeActive := compromisedModeActive w;
     compromisedReason := compromisedReason w;
     currentAccountEmail := currentAccountEmail w;
     isMobile := isMobile w;
     globalStandby := globalStandby w;
     history := history w ++ [e] |}.

(** *** Computations: state and exceptions *)

Inductive result (A : Type) :=
| Ok (a : A)
| Throw (e : exn).
Arguments Throw {A} e.

Definition M (A : Type) : Type := World -> result A * World.

Definition ret {A} (a : A) : M A := fun w => (Ok a, w).

Definition bind {A B} (m : M A) (k : A -> M B) : M B :=
  fun w =>
    match m w with
    | (Ok a, w') => k a w'
    | (Throw e, w') => (Throw e, w')
    end.

Definition throw {A} (e : exn) : M A := fun w => (Throw e, w).

(** [try { body } catch (e) { handler e }]: what the body did before it
    threw stays done. *)
Definition try_catch {A} (body : M A) (handler : exn -> M A) : M A :=
  fun w =>
    match body w with
    | (Ok a, w') => (Ok a, w')
    | (Throw e, w') => handler e w'
    end.

Definition get : M World := fun w => (Ok w, w).
Definition modify (f : World -> World) : M unit := fun w => (Ok tt, f w).
Definition emit (e : event) : M unit := modify (record e).

(** [await p] *)
Definition await {A} (p : outcome A) : M A :=
  match p with
  | Resolved a => ret a
  | Rejected r => throw (Foreign r)
  end.

Declare Scope js_scope.
Delimit Scope js_scope with js_scope.
Notation "x <- m ;; k" := (bind m (fun x => k))
  (at level 100, m at next level, right associativity) : js_scope.
Notation "m ;;; k" := (bind m (fun _ => k))
  (at level 100, right associativity) : js_scope.
Local Open Scope js_scope.

(** [bot.log(isMobile, tag, message, level)]; a call that leaves the level
    out is recorded with the level "log". *)
Definition log (tag message level : string) : M unit :=
  w <- get ;; emit (Log (isMobile w) tag message level).

(** [logError(tag, message, isMobile)]: the handler handed to [.catch],
    which logs at error level and resolves. *)
Definition logError (tag message : string) : exn -> M unit :=
  fun _ => log tag message "error".

(* ------------------------------------------------------------------ *)
(** ** The page and the collaborators                                   *)
(* ------------------------------------------------------------------ *)

Record ElementHandle := { textContent : outcome (option jstring) }.

(** The page as the driver shows it during one check: what waiting for a
    selector with a timeout settles to. *)
Record Page := { waitForSelector : string -> N -> outcome (option ElementHandle) }.

(** Result of a dispatch.
    Modelled from the spec: SecurityUtils.sendIncidentAlert is not among
    the sources; the dispatcher's [send] reports success or failure. *)
Inductive delivery := delivered | undelivered.

(** [SecurityUtils] and the bot's [engageGlobalStandby], whose bodies are
    not among the sources: what their calls settle to. *)
Record Collaborators := {
  getDocsUrl : string -> string;
  sendIncidentAlert : SecurityIncident -> string -> outcome delivery;
  engageGlobalStandby : string -> string -> outcome unit;
  openDocsTab : string -> outcome unit
}.

Definition page_waitForSelector (page : Page) (sel : string) (timeout : N)
  : M (option ElementHandle) :=
  emit (WaitForSelector sel timeout) ;;; await (waitForSelector page sel timeout).

Definition el_textContent (sel : string) (el : ElementHandle) : M (option jstring) :=
  emit (TextContent sel) ;;; await (textContent el).

Definition securityUtils_sendIncidentAlert (c : Collaborators)
  (incident : SecurityIncident) (severity : string) : M delivery :=
  emit (SendIncidentAlert incident severity) ;;;
  await (sendIncidentAlert c incident severity).

(** Modelled from the spec: index.ts (engageGlobalStandby) is not among the
    sources; a call that resolves has latched the fleet-wide standby with
    its reason and the triggering account. *)
Definition bot_engageGlobalStandby (c : Collaborators) (reason email : string) : M unit :=
  emit (EngageGlobalStandby reason email) ;;;
  await (engageGlobalStandby c reason email) ;;;
  modify (set_globalStandby (reason, email)).

Definition securityUtils_openDocsTab (c : Collaborators) (url : string) : M unit :=
  emit (OpenDocsTab url) ;;; await (openDocsTab c url).

(* ------------------------------------------------------------------ *)
(** ** SecurityDetector                                                 *)
(* ------------------------------------------------------------------ *)

(** The double-quote character of the attribute selectors. *)
Definition dq : string := String (ascii_of_nat 34) EmptyString.

(** SecurityDetector.ts:28 *)
Definition HEADING_SELECTORS : list string :=
  [ ("[data-testid=" ++ dq ++ "title" ++ dq ++ "]")%string;
    "h1";
    ("div[role=" ++ dq ++ "heading" ++ dq ++ "]")%string;
    "div.text-title" ].

Definition LOCKED_SELECTOR : string := "#serviceAbuseLandingTitle".
Definition SIGN_IN_BLOCKED : string := "sign-in-blocked".
Definition LOCKED_MESSAGE : string :=
  "Account locked by Microsoft - please review account status".

(** [s || fallback] on a [string | undefined]. *)
Definition or_default (s : option string) (fallback : string) : string :=
  match s with
  | Some e => if String.eqb e EmptyString then fallback else e
  | None => fallback
  end.

(** [c || ''] on a [string | null]. *)
Definition or_empty (c : option jstring) : jstring :=
  match c with
  | Some s => s
  | None => []
  end.

(** SecurityDetector.ts:32, [t && t.length < 300] *)
Definition contributes (t : jstring) : bool :=
  match t with
  | [] => false
  | _ => (List.length t <? 300)%nat
  end.

(** SecurityDetector.ts:29-33, one turn of the loop over the selectors. *)
Definition probe (page : Page) (text : jstring) (sel : string) : M jstring :=
  el <- try_catch (page_waitForSelector page sel 600) (fun _ => ret None) ;;
  match el with
  | Some el =>
      c <- el_textContent sel el ;;
      let t := trim (or_empty c) in
      if contributes t then ret (text ++ js " " ++ t) else ret text
  | None => ret text
  end.

(** SecurityDetector.ts:27-34 *)
Fixpoint probeHeadings (page : Page) (sels : list string) (text : jstring) : M jstring :=
  match sels with
  | [] => ret text
  | sel :: sels' => text' <- probe page text sel ;; probeHeadings page sels' text'
  end.

(** SecurityDetector.ts:44, [matched ? `Pattern: ${matched}` : 'Pattern: unknown'] *)
Definition pattern_detail (matched : option string) : string :=
  match matched with
  | Some l => if String.eqb l EmptyString then "Pattern: unknown"
              else ("Pattern: " ++ l)%string
  | None => "Pattern: unknown"
  end.

(** SecurityDetector.ts:39-55, the path taken once [matched] is truthy.
    The two synchronous calls into SecurityUtils, [getDocsUrl] (line 40)
    and [startCompromisedInterval] (line 51), are taken to return. *)
Definition confirm (c : Collaborators) (matched : option string) : M bool :=
  w <- get ;;
  let email := or_default (currentAccountEmail w) "unknown" in
  let url := getDocsUrl c "we-cant-sign-you-in" in
  let incident :=
    {| kind := "We can't sign you in (blocked)";
       account := email;
       details := [ pattern_detail matched ];
       next := [ "Manual recovery required before continuing" ];
       docsUrl := url |} in
  securityUtils_sendIncidentAlert c incident "warn" ;;;
  modify (set_compromisedModeActive true) ;;;
  modify (set_compromisedReason SIGN_IN_BLOCKED) ;;;
  emit StartCompromisedInterval ;;;
  try_catch (bot_engageGlobalStandby c SIGN_IN_BLOCKED email)
            (logError "LOGIN-SECURITY" "Global standby engagement failed") ;;;
  try_catch (securityUtils_openDocsTab c url)
            (logError "LOGIN-SECURITY" "Failed to open docs tab") ;;;
  ret true.

(** SecurityDetector.ts:25, the condition of the early return. *)
Definition already_blocked (w : World) : bool :=
  compromisedModeActive w
  && match compromisedReason w with
     | Some r => String.eqb r SIGN_IN_BLOCKED
     | None => false
     end.

Section Detector.
Context {engine : JsEngine}.

(** SecurityDetector.ts:26-55, the body of the [try]. *)
Definition scan (c : Collaborators) (page : Page) : M bool :=
  text <- probeHeadings page HEADING_SELECTORS [] ;;
  let lower := toLowerCase text in
  let matched := first_match SIGN_IN_BLOCK_PATTERNS lower in
  if negb (truthy matched) then ret false else confirm c matched.

(** SecurityDetector.ts:24-57 *)
Definition detectSignInBlocked (c : Collaborators) (page : Page) : M bool :=
  w <- get ;;
  if already_blocked w then ret true
  else try_catch (scan c page) (fun _ => ret false).

End Detector.

(** SecurityDetector.ts:59-65.  [.then(() => true).catch(() => false)]:
    locked is whether the wait resolved. *)
Definition checkAccountLocked (page : Page) : M unit :=
  locked <- try_catch (page_waitForSelector page LOCKED_SELECTOR 1200 ;;; ret true)
                      (fun _ => ret false) ;;
  if locked : bool then
    log "CHECK-LOCKED" "Account locked by Microsoft (serviceAbuseLandingTitle)" "error" ;;;
    throw (JsError LOCKED_MESSAGE)
  else ret tt.

(* ------------------------------------------------------------------ *)
(** ** Browser.createBrowser                                            *)
(* ------------------------------------------------------------------ *)

(** util/FingerprintValidator.ts is not among the sources; the result has
    the three fields the caller and the spec name. *)
Record ValidationResult := {
  valid : bool;
  criticalIssues : list string;
  warnings : list string
}.

Record RiskManagement := { stopOnCritical : option bool }.
Record SaveFingerprint := { mobile : bool; desktop : bool }.

(** The parts of the configuration [createBrowser] reads. *)
Record Config := {
  headless : option bool;
  riskManagement : option RiskManagement;
  legacySaveFingerprint : option SaveFingerprint;
  nestedSaveFingerprint : option SaveFingerprint
}.

Record Fingerprint := { userAgent : string }.
Record SessionData := { cookies : list string; fingerprint : option Fingerprint }.

(** The context handed back, with the fingerprint injected into it. *)
Record BrowserContext := { injected : Fingerprint }.

(** The process environment and what the collaborators of [createBrowser]
    settle to. *)
Record Platform := {
  AUTO_INSTALL_BROWSERS : bool;
  FORCE_HEADLESS : bool;
  execSync : outcome unit;
  launch : outcome unit;
  loadSessionData : string -> outcome SessionData;
  updateFingerprintUserAgent : outcome Fingerprint;
  validateFingerprintConsistency : Fingerprint -> Config -> ValidationResult;
  newInjectedContext : Fingerprint -> outcome BrowserContext;
  setDefaultTimeout : outcome unit;
  onPage : outcome unit;
  addCookies : list string -> outcome unit;
  saveFingerprintData : string -> Fingerprint -> outcome unit
}.

(** [xs.join(', ')] *)
Fixpoint join (xs : list string) : string :=
  match xs with
  | [] => EmptyString
  | [x] => x
  | x :: xs' => (x ++ ", " ++ join xs')%string
  end.

(** Browser.ts:110, the message of the error of the gate. *)
Definition fingerprint_failure (email : string) (r : ValidationResult) : exn :=
  JsError ("Fingerprint validation failed for " ++ email ++ ": "
           ++ join (criticalIssues r))%string.

(** [config.riskManagement?.stopOnCritical] as a condition. *)
Definition stops_on_critical (cfg : Config) : bool :=
  match riskManagement cfg with
  | Some rm => match stopOnCritical rm with Some b => b | None => false end
  | None => false
  end.

(** Browser.ts:97-99, [legacyFp || nestedFp || { mobile: false, desktop: false }] *)
Definition saveFingerprint_of (cfg : Config) : SaveFingerprint :=
  match legacySaveFingerprint cfg with
  | Some f => f
  | None => match nestedSaveFingerprint cfg with
            | Some f => f
            | None => {| mobile := false; desktop := false |}
            end
  end.

Definition reason_of (e : exn) : string :=
  match e with
  | JsError m => m
  | Foreign r => r
  end.

(** Browser.ts:19-31 *)
Definition autoInstall (pf : Platform) : M unit :=
  if AUTO_INSTALL_BROWSERS pf then
    try_catch
      (log "BROWSER" "Auto-installing Chromium..." "log" ;;;
       emit AutoInstall ;;;
       await (execSync pf) ;;;
       log "BROWSER" "Chromium installed successfully" "log")
      (fun e => log "BROWSER" ("Auto-install failed: " ++ reason_of e)%string "warn")
  else ret tt.

(** Browser.ts:33-95.  The proxy options of line 40 come from
    [buildPlaywrightProxy], which is modelled on its own; the error lines
    it may log are not part of the history of this stage. *)
Definition launchBrowser (pf : Platform) (cfg : Config) : M unit :=
  try_catch
    (let headless :=
       if FORCE_HEADLESS pf then true
       else match headless cfg with Some h => h | None => false end in
     log "BROWSER"
         ("Launching chromium (headless=" ++ (if headless then "true" else "false") ++ ")")%string
         "log" ;;;
     emit Launch ;;;
     await (launch pf))
    (fun e =>
       (if test (lit "Executable doesn't exist") (js (reason_of e))
        then log "BROWSER"
               ("Chromium not installed. Run " ++ dq ++ "npm run pre-build" ++ dq
                ++ " or set AUTO_INSTALL_BROWSERS=1")%string
               "error"
        else log "BROWSER" ("Failed to launch browser: " ++ reason_of e)%string "error") ;;;
       throw e).

(** Browser.ts:101-102 *)
Definition obtainFingerprint (pf : Platform) (email : string) : M (SessionData * Fingerprint) :=
  emit (LoadSessionData email) ;;;
  sessionData <- await (loadSessionData pf email) ;;
  match fingerprint sessionData with
  | Some fp => ret (sessionData, fp)
  | None =>
      emit GenerateFingerprint ;;;
      fp <- await (updateFingerprintUserAgent pf) ;;
      ret (sessionData, fp)
  end.

(** Browser.ts:104-111 *)
Definition fingerprintGate (pf : Platform) (cfg : Config) (email : string)
  (fp : Fingerprint) : M unit :=
  let validationResult := validateFingerprintConsistency pf fp cfg in
  emit (LogFingerprintValidation email) ;;;
  if negb (valid validationResult) && stops_on_critical cfg
  then throw (fingerprint_failure email validationResult)
  else ret tt.

(** Browser.ts:113-301 *)
Definition openContext (pf : Platform) (cfg : Config) (email : string)
  (sessionData : SessionData) (fp : Fingerprint) : M BrowserContext :=
  emit NewInjectedContext ;;;
  context <- await (newInjectedContext pf fp) ;;
  emit SetDefaultTimeout ;;;
  await (setDefaultTimeout pf) ;;;
  try_catch (emit OnPage ;;; await (onPage pf))
            (fun e => log "BROWSER"
                        ("Context event handler warning: " ++ reason_of e)%string "warn") ;;;
  emit AddCookies ;;;
  await (addCookies pf (cookies sessionData)) ;;;
  (if mobile (saveFingerprint_of cfg) || desktop (saveFingerprint_of cfg)
   then emit (SaveFingerprintData email) ;;; await (saveFingerprintData pf email fp)
   else ret tt) ;;;
  log "BROWSER" ("Browser ready with UA: " ++ dq ++ userAgent fp ++ dq)%string "log" ;;;
  ret context.

(** Browser.ts:18-302 *)
Definition createBrowser (pf : Platform) (cfg : Config) (email : string)
  : M BrowserContext :=
  autoInstall pf ;;;
  launchBrowser pf cfg ;;;
  sf <- obtainFingerprint pf email ;;
  fingerprintGate pf cfg email (snd sf) ;;;
  openContext pf cfg email (fst sf) (snd sf).

(* ------------------------------------------------------------------ *)
(** ** Reading the runs                                                 *)
(* ------------------------------------------------------------------ *)

(** The calls [evs] appended to the history, nothing else touched. *)
Definition record_all (evs : list event) (w : World) : World :=
  fold_left (fun v e => record e v) evs w.

(** The bot fields agree (the histories may differ). *)
Definition same_bot (w w' : World) : Prop :=
  compromisedModeActive w' = compromisedModeActive w
  /\ compromisedReason w' = compromisedReason w
  /\ currentAccountEmail w' = currentAccountEmail w
  /\ isMobile w' = isMobile w
  /\ globalStandby w' = globalStandby w.

(** What [el] is after line 29: a rejected wait has become [null]. *)
Definition settle_wait (page : Page) (sel : string) : option ElementHandle :=
  match waitForSelector page sel 600 with
  | Resolved el => el
  | Rejected _ => None
  end.

(** Value and calls of one turn of the probing loop. *)
Definition probe_value (page : Page) (text : jstring) (sel : string) : result jstring :=
  match settle_wait page sel with
  | None => Ok text
  | Some el =>
      match textContent el with
      | Resolved c =>
          let t := trim (or_empty c) in
          Ok (if contributes t then text ++ js " " ++ t else text)
      | Rejected r => Throw (Foreign r)
      end
  end.

Definition probe_events (page : Page) (sel : string) : list event :=
  WaitForSelector sel 600
  :: match settle_wait page sel with
     | Some _ => [TextContent sel]
     | None => []
     end.

(** Value and calls of the whole loop: it stops at the first throw. *)
Fixpoint gather_value (page : Page) (sels : list string) (text : jstring) : result jstring :=
  match sels with
  | [] => Ok text
  | sel :: sels' =>
      match probe_value page text sel with
      | Ok text' => gather_value page sels' text'
      | Throw e => Throw e
      end
  end.

Fixpoint gather_events (page : Page) (sels : list string) : list event :=
  match sels with
  | [] => []
  | sel :: sels' =>
      probe_events page sel
      ++ match probe_value page [] sel with
         | Ok _ => gather_events page sels'
         | Throw _ => []
         end
  end.

(** The selectors waited for, with their timeouts, in call order. *)
Fixpoint waits (evs : list event) : list (string * N) :=
  match evs with
  | [] => []
  | WaitForSelector sel t :: evs' => (sel, t) :: waits evs'
  | _ :: evs' => waits evs'
  end.

(** The incidents handed to the dispatcher, in call order. *)
Fixpoint alerts (evs : list event) : list SecurityIncident :=
  match evs with
  | [] => []
  | SendIncidentAlert i _ :: evs' => i :: alerts evs'
  | _ :: evs' => alerts evs'
  end.

(** The engagements of the global standby asked for, in call order. *)
Fixpoint engagements (evs : list event) : list (string * string) :=
  match evs with
  | [] => []
  | EngageGlobalStandby r a :: evs' => (r, a) :: engagements evs'
  | _ :: evs' => engagements evs'
  end.

(** The page with [sel] simply not there. *)
Definition absent (sel : string) (page : Page) : Page :=
  {| waitForSelector := fun s t =>
       if String.eqb s sel then Resolved None else waitForSelector page s t |}.

(** The incident of lines 41-47 for the bot [w] and the label [l]. *)
Definition incident_of (c : Collaborators) (w : World) (l : string) : SecurityIncident :=
  {| kind := "We can't sign you in (blocked)";
     account := or_default (currentAccountEmail w) "unknown";
     details := [ ("Pattern: " ++ l)%string ];
     next := [ "Manual recovery required before continuing" ];
     docsUrl := getDocsUrl c "we-cant-sign-you-in" |}.

(** The calls of lines 48-54 when the dispatch has resolved: a rejected
    engagement or a rejected docs tab adds the line its handler logs. *)
Definition confirm_events (c : Collaborators) (w : World) (l : string) : list event :=
  let email := or_default (currentAccountEmail w) "unknown" in
  let url := getDocsUrl c "we-cant-sign-you-in" in
  [ SendIncidentAlert (incident_of c w l) "warn";
    StartCompromisedInterval;
    EngageGlobalStandby SIGN_IN_BLOCKED email ]
  ++ match engageGlobalStandby c SIGN_IN_BLOCKED email with
     | Resolved _ => []
     | Rejected _ =>
         [ Log (isMobile w) "LOGIN-SECURITY" "Global standby engagement failed" "error" ]
     end
  ++ [ OpenDocsTab url ]
  ++ match openDocsTab c url with
     | Resolved _ => []
     | Rejected _ => [ Log (isMobile w) "LOGIN-SECURITY" "Failed to open docs tab" "error" ]
     end.

(** The bot after lines 48-54 when the dispatch has resolved. *)
Definition confirm_world (c : Collaborators) (w : World) (l : string) : World :=
  let email := or_default (currentAccountEmail w) "unknown" in
  {| compromisedModeActive := true;
     compromisedReason := Some SIGN_IN_BLOCKED;
     currentAccountEmail := currentAccountEmail w;
     isMobile := isMobile w;
     globalStandby :=
       match engageGlobalStandby c SIGN_IN_BLOCKED email with
       | Resolved _ => Some (SIGN_IN_BLOCKED, email)
       | Rejected _ => globalStandby w
       end;
     history := history w ++ confirm_events c w l |}.

(** The ways a check can end, with the bot it leaves: taken on the early
    return; nothing confirmed (no match, or the reading of a heading
    threw); a match whose dispatch threw; a match confirmed. *)
Variant ending {engine : JsEngine} (c : Collaborators) (page : Page) (w : World)
  : result bool * World -> Prop :=
| EndEarly :
    already_blocked w = true ->
    ending c page w (Ok true, w)
| EndUnread e :
    already_blocked w = false ->
    gather_value page HEADING_SELECTORS [] = Throw e ->
    ending c page w (Ok false, record_all (gather_events page HEADING_SELECTORS) w)
| EndNoMatch text :
    already_blocked w = false ->
    gather_value page HEADING_SELECTORS [] = Ok text ->
    first_match SIGN_IN_BLOCK_PATTERNS (toLowerCase text) = None ->
    ending c page w (Ok false, record_all (gather_events page HEADING_SELECTORS) w)
| EndUnsent text l r :
    already_blocked w = false ->
    gather_value page HEADING_SELECTORS [] = Ok text ->
    first_match SIGN_IN_BLOCK_PATTERNS (toLowerCase text) = Some l ->
    sendIncidentAlert c (incident_of c w l) "warn" = Rejected r ->
    ending c page w
      (Ok false,
       record (SendIncidentAlert (incident_of c w l) "warn")
              (record_all (gather_events page HEADING_SELECTORS) w))
| EndConfirmed text l d :
    already_blocked w = false ->
    gather_value page HEADING_SELECTORS [] = Ok text ->
    first_match SIGN_IN_BLOCK_PATTERNS (toLowerCase text) = Some l ->
    sendIncidentAlert c (incident_of c w l) "warn" = Resolved d ->
    ending c page w
      (Ok true, confirm_world c (record_all (gather_events page HEADING_SELECTORS) w) l).

(** The calls of [checkAccountLocked]. *)
Definition check_events (page : Page) (w : World) : list event :=
  WaitForSelector LOCKED_SELECTOR 1200
  :: match waitForSelector page LOCKED_SELECTOR 1200 with
     | Resolved _ =>
         [ Log (isMobile w) "CHECK-LOCKED"
               "Account locked by Microsoft (serviceAbuseLandingTitle)" "error" ]
     | Rejected _ => []
     end.

(** The fleet state as the bot's fields show it. *)
Inductive CompromisedState :=
| Normal
| Compromised (reason : option string)
| GlobalStandby (reason account : string).

Definition currentState (w : World) : CompromisedState :=
  match globalStandby w with
  | Some (r, a) => GlobalStandby r a
  | None => if compromisedModeActive w then Compromised (compromisedReason w) else Normal
  end.


(** The account of the incident reported last. *)
Definition incidentAccount (w : World) : option string :=
  match rev (alerts (history w)) with
  | i :: _ => Some (account i)
  | [] => None
  end.

(** What a worker does between two resets: checks, and moving on to
    another account. *)
Inductive call {engine : JsEngine} :=
| Detect (c : Collaborators) (page : Page)
| CheckLocked (page : Page)
| SwitchAccount (email : option string).

Inductive reply :=
| Detected (r : result bool)
| Checked (r : result unit)
| Switched.

Definition perform {engine : JsEngine} (k : call) (w : World) : reply * World :=
  match k with
  | Detect c page => let (r, w') := detectSignInBlocked c page w in (Detected r, w')
  | CheckLocked page => let (r, w') := checkAccountLocked page w in (Checked r, w')
  | SwitchAccount email => (Switched, set_currentAccountEmail email w)
  end.

Fixpoint run {engine : JsEngine} (ks : list call) (w : World) : list reply * World :=
  match ks with
  | [] => ([], w)
  | k :: ks' =>
      let (r, w') := perform k w in
      let (rs, w'') := run ks' w' in
      (r :: rs, w'')
  end.

(** A reply to a check is [true]; other replies pass. *)
Definition true_if_detect (r : reply) : bool :=
  match r with
  | Detected (Ok true) => true
  | Detected _ => false
  | _ => true
  end.

(* ------------------------------------------------------------------ *)
(** ** Sample bots, pages and collaborators                             *)
(* ------------------------------------------------------------------ *)

(** A bot at the start of a run, working on [email]. *)
Definition fresh (email : string) : World :=
  {| compromisedModeActive := false;
     compromisedReason := None;
     currentAccountEmail := Some email;
     isMobile := false;
     globalStandby := None;
     history := [] |}.

Definition heading (text : string) : outcome (option ElementHandle) :=
  Resolved (Some {| textContent := Resolved (Some (js text)) |}).

Definition timed_out : outcome (option ElementHandle) :=
  Rejected "Timeout exceeded".

(** Only an h1, with the lockout wording. *)
Definition blocked_page : Page :=
  {| waitForSelector := fun sel _ =>
       if String.eqb sel "h1" then heading "We can't sign you in right now"
       else timed_out |}.

(** No heading region at all. *)
Definition empty_page : Page := {| waitForSelector := fun _ _ => timed_out |}.

(** The hard-lock landing page. *)
Definition locked_page : Page :=
  {| waitForSelector := fun sel _ =>
       if String.eqb sel LOCKED_SELECTOR then heading "Your account has been locked"
       else timed_out |}.

(** The lockout wording in the title region, and an h1 that is found but
    whose text can no longer be read (the page navigated in between). *)
Definition racing_page : Page :=
  {| waitForSelector := fun sel _ =>
       if String.eqb sel (hd EmptyString HEADING_SELECTORS)
       then heading "We can't sign you in right now"
       else if String.eqb sel "h1"
       then Resolved (Some {| textContent := Rejected "Execution context was destroyed" |})
       else timed_out |}.

(** An h1 of [n] letters. *)
Definition long_page (n : nat) : Page :=
  {| waitForSelector := fun sel _ =>
       if String.eqb sel "h1"
       then Resolved (Some {| textContent :=
              Resolved (Some (js "your account has been locked" ++ repeat 97%N n)) |})
       else timed_out |}.

(** Collaborators with the three calls settling to [a], [g] and [d]. *)
Definition collaborators (a : outcome delivery) (g d : outcome unit) : Collaborators :=
  {| getDocsUrl := fun topic => ("docs/security#" ++ topic)%string;
     sendIncidentAlert := fun _ _ => a;
     engageGlobalStandby := fun _ _ => g;
     openDocsTab := fun _ => d |}.

Definition cooperative : Collaborators :=
  collaborators (Resolved delivered) (Resolved tt) (Resolved tt).

(** The bot after a confirmed lockout of a@x ... *)
Definition after_lockout : World :=
  snd (detectSignInBlocked cooperative blocked_page (fresh "a@x")).

(** ... and once it has moved on to b@x. *)
Definition moved_on : World := set_currentAccountEmail (Some "b@x") after_lockout.

(** A probing error at [sel]: the wait is rejected, or the element is found
    and reading its text is rejected. *)
Definition probing_error (page : Page) (sel : string) : Prop :=
  (exists r, waitForSelector page sel 600 = Rejected r)
  \/ (exists el r, waitForSelector page sel 600 = Resolved (Some el)
                   /\ textContent el = Rejected r).

(** Collaborators whose dispatch reports a failure and whose standby
    engagement and docs tab are both rejected. *)
Definition failing : Collaborators :=
  collaborators (Resolved undelivered) (Rejected "standby unavailable")
                (Rejected "no browser context").

(** The validation result the gate of [createBrowser] looks at, when the
    run gets as far as the gate: the browser launched, the session data
    loaded, and a fingerprint was found in it or generated. *)
Definition fingerprint_used (pf : Platform) (email : string) : option (SessionData * Fingerprint) :=
  match launch pf with
  | Rejected _ => None
  | Resolved _ =>
      match loadSessionData pf email with
      | Rejected _ => None
      | Resolved sd =>
          match fingerprint sd with
          | Some fp => Some (sd, fp)
          | None =>
              match updateFingerprintUserAgent pf with
              | Resolved fp => Some (sd, fp)
              | Rejected _ => None
              end
          end
      end
  end.

Definition validation_reached (pf : Platform) (cfg : Config) (email : string)
  : option ValidationResult :=
  match fingerprint_used pf email with
  | Some (_, fp) => Some (validateFingerprintConsistency pf fp cfg)
  | None => None
  end.

(** What a stage of [createBrowser] does to the bot: it appends calls. *)
Definition appends {A} (m : M A) (r : result A) (w : World) (evs : list event) : Prop :=
  m w = (r, record_all evs w).

(** Everything after the gate resolves. *)
Definition context_opens (pf : Platform) (cfg : Config) (email : string)
  (sd : SessionData) (fp : Fingerprint) (ctx : BrowserContext) : Prop :=
  newInjectedContext pf fp = Resolved ctx
  /\ setDefaultTimeout pf = Resolved tt
  /\ addCookies pf (cookies sd) = Resolved tt
  /\ saveFingerprintData pf email fp = Resolved tt.

(** A platform where every collaborator resolves; the session holds no
    fingerprint, one is generated and the validator gives [r] for it. *)
Definition platform (r : ValidationResult) : Platform :=
  {| AUTO_INSTALL_BROWSERS := false;
     FORCE_HEADLESS := true;
     execSync := Resolved tt;
     launch := Resolved tt;
     loadSessionData := fun _ => Resolved {| cookies := []; fingerprint := None |};
     updateFingerprintUserAgent := Resolved {| userAgent := "Mozilla/5.0" |};
     validateFingerprintConsistency := fun _ _ => r;
     newInjectedContext := fun fp => Resolved {| injected := fp |};
     setDefaultTimeout := Resolved tt;
     onPage := Resolved tt;
     addCookies := fun _ => Resolved tt;
     saveFingerprintData := fun _ _ => Resolved tt |}.

Definition mismatch : ValidationResult :=
  {| valid := false; criticalIssues := ["mobile/viewport mismatch"]; warnings := [] |}.

Definition config (stop : option bool) : Config :=
  {| headless := None;
     riskManagement := Some {| stopOnCritical := stop |};
     legacySaveFingerprint := None;
     nestedSaveFingerprint := None |}.


From Stdlib Require QArith Qminmax Lqa.

(* ------------------------------------------------------------------ *)
(** ** More readings of the probing loop                                *)
(* ------------------------------------------------------------------ *)

(** What the heading under [sel] adds to the aggregated text
    (SecurityDetector.ts:29-33): a space and the trimmed text when the
    heading is found, read, non-empty and shorter than 300; nothing
    otherwise. *)
Definition contribution (page : Page) (sel : string) : jstring :=
  match settle_wait page sel with
  | Some el =>
      match textContent el with
      | Resolved c =>
          if contributes (trim (or_empty c)) then js " " ++ trim (or_empty c) else []
      | Rejected _ => []
      end
  | None => []
  end.

(** Two regions that carry the lockout wording only when read together. *)
Definition split_page : Page :=
  {| waitForSelector := fun sel _ =>
       if String.eqb sel "h1" then heading "Sorry, we can't sign"
       else if String.eqb sel "div.text-title" then heading "you in right now"
       else timed_out |}.

(** A bot in compromised mode for another reason. *)
Definition other_reason : World :=
  {| compromisedModeActive := true;
     compromisedReason := Some "recovery-mismatch";
     currentAccountEmail := None;
     isMobile := true;
     globalStandby := None;
     history := [] |}.

(** Collaborators whose dispatch is rejected. *)
Definition unreachable_dispatch : Collaborators :=
  collaborators (Rejected "webhook unreachable") (Resolved tt) (Resolved tt).

(* ------------------------------------------------------------------ *)
(** ** Reading the runs of createBrowser                                *)
(* ------------------------------------------------------------------ *)

(** The calls of the stages of [createBrowser], for a bot whose mobile
    flag is [m], and what each stage hands back. *)
Definition autoInstall_events (pf : Platform) (m : bool) : list event :=
  if AUTO_INSTALL_BROWSERS pf then
    [ Log m "BROWSER" "Auto-installing Chromium..." "log";
      AutoInstall;
      match execSync pf with
      | Resolved _ => Log m "BROWSER" "Chromium installed successfully" "log"
      | Rejected r => Log m "BROWSER" ("Auto-install failed: " ++ r)%string "warn"
      end ]
  else [].

Definition launch_value (pf : Platform) : result unit :=
  match launch pf with
  | Resolved _ => Ok tt
  | Rejected r => Throw (Foreign r)
  end.

Definition launch_events (pf : Platform) (cfg : Config) (m : bool) : list event :=
  [ Log m "BROWSER"
        ("Launching chromium (headless="
         ++ (if (if FORCE_HEADLESS pf then true
                 else match headless cfg with Some h => h | None => false end)
             then "true" else "false") ++ ")")%string
        "log";
    Launch ]
  ++ match launch pf with
     | Resolved _ => []
     | Rejected r =>
         [ if test (lit "Executable doesn't exist") (js r)
           then Log m "BROWSER"
                  ("Chromium not installed. Run " ++ dq ++ "npm run pre-build" ++ dq
                   ++ " or set AUTO_INSTALL_BROWSERS=1")%string
                  "error"
           else Log m "BROWSER" ("Failed to launch browser: " ++ r)%string "error" ]
     end.

Definition obtain_value (pf : Platform) (email : string)
  : result (SessionData * Fingerprint) :=
  match loadSessionData pf email with
  | Rejected r => Throw (Foreign r)
  | Resolved sd =>
      match fingerprint sd with
      | Some fp => Ok (sd, fp)
      | None =>
          match updateFingerprintUserAgent pf with
          | Resolved fp => Ok (sd, fp)
          | Rejected r => Throw (Foreign r)
          end
      end
  end.

Definition obtain_events (pf : Platform) (email : string) : list event :=
  LoadSessionData email
  :: match loadSessionData pf email with
     | Resolved sd =>
         match fingerprint sd with
         | Some _ => []
         | None => [GenerateFingerprint]
         end
     | Rejected _ => []
     end.

Definition gate_value (pf : Platform) (cfg : Config) (email : string) (fp : Fingerprint)
  : result unit :=
  if negb (valid (validateFingerprintConsistency pf fp cfg)) && stops_on_critical cfg
  then Throw (fingerprint_failure email (validateFingerprintConsistency pf fp cfg))
  else Ok tt.

Definition saves (cfg : Config) : bool :=
  mobile (saveFingerprint_of cfg) || desktop (saveFingerprint_of cfg).

Definition context_value (pf : Platform) (cfg : Config) (email : string)
  (sd : SessionData) (fp : Fingerprint) : result BrowserContext :=
  match newInjectedContext pf fp with
  | Rejected r => Throw (Foreign r)
  | Resolved ctx =>
      match setDefaultTimeout pf with
      | Rejected r => Throw (Foreign r)
      | Resolved _ =>
          match addCookies pf (cookies sd) with
          | Rejected r => Throw (Foreign r)
          | Resolved _ =>
              if saves cfg then
                match saveFingerprintData pf email fp with
                | Rejected r => Throw (Foreign r)
                | Resolved _ => Ok ctx
                end
              else Ok ctx
          end
      end
  end.

Definition ready (m : bool) (fp : Fingerprint) : event :=
  Log m "BROWSER" ("Browser ready with UA: " ++ dq ++ userAgent fp ++ dq)%string "log".

Definition context_events (pf : Platform) (cfg : Config) (email : string)
  (sd : SessionData) (fp : Fingerprint) (m : bool) : list event :=
  NewInjectedContext
  :: match newInjectedContext pf fp with
     | Rejected _ => []
     | Resolved _ =>
         SetDefaultTimeout
         :: match setDefaultTimeout pf with
            | Rejected _ => []
            | Resolved _ =>
                OnPage
                :: match onPage pf with
                   | Resolved _ => []
                   | Rejected r =>
                       [ Log m "BROWSER"
                             ("Context event handler warning: " ++ r)%string "warn" ]
                   end
                ++ AddCookies
                   :: match addCookies pf (cookies sd) with
                      | Rejected _ => []
                      | Resolved _ =>
                          if saves cfg then
                            SaveFingerprintData email
                            :: match saveFingerprintData pf email fp with
                               | Resolved _ => [ready m fp]
                               | Rejected _ => []
                               end
                          else [ready m fp]
                      end
            end
     end.

(** The whole run: value and calls. *)
Definition createBrowser_value (pf : Platform) (cfg : Config) (email : string)
  : result BrowserContext :=
  match launch_value pf with
  | Throw e => Throw e
  | Ok _ =>
      match obtain_value pf email with
      | Throw e => Throw e
      | Ok (sd, fp) =>
          match gate_value pf cfg email fp with
          | Throw e => Throw e
          | Ok _ => context_value pf cfg email sd fp
          end
      end
  end.

Definition createBrowser_events (pf : Platform) (cfg : Config) (email : string) (m : bool)
  : list event :=
  autoInstall_events pf m
  ++ launch_events pf cfg m
  ++ match launch_value pf with
     | Throw _ => []
     | Ok _ =>
         obtain_events pf email
         ++ match obtain_value pf email with
            | Throw _ => []
            | Ok (sd, fp) =>
                LogFingerprintValidation email
                :: match gate_value pf cfg email fp with
                   | Throw _ => []
                   | Ok _ => context_events pf cfg email sd fp m
                   end
            end
     end.

(** The calls other than log lines. *)
Fixpoint steps (evs : list event) : list event :=
  match evs with
  | [] => []
  | Log _ _ _ _ :: evs' => steps evs'
  | e :: evs' => e :: steps evs'
  end.

(** The same platform with another auto-install setting. *)
Definition with_install (flag : bool) (o : outcome unit) (pf : Platform) : Platform :=
  {| AUTO_INSTALL_BROWSERS := flag;
     FORCE_HEADLESS := FORCE_HEADLESS pf;
     execSync := o;
     launch := launch pf;
     loadSessionData := loadSessionData pf;
     updateFingerprintUserAgent := updateFingerprintUserAgent pf;
     validateFingerprintConsistency := validateFingerprintConsistency pf;
     newInjectedContext := newInjectedContext pf;
     setDefaultTimeout := setDefaultTimeout pf;
     onPage := onPage pf;
     addCookies := addCookies pf;
     saveFingerprintData := saveFingerprintData pf |}.

(** The same platform with another settlement of [context.on('page')]. *)
Definition with_onPage (o : outcome unit) (pf : Platform) : Platform :=
  {| AUTO_INSTALL_BROWSERS := AUTO_INSTALL_BROWSERS pf;
     FORCE_HEADLESS := FORCE_HEADLESS pf;
     execSync := execSync pf;
     launch := launch pf;
     loadSessionData := loadSessionData pf;
     updateFingerprintUserAgent := updateFingerprintUserAgent pf;
     validateFingerprintConsistency := validateFingerprintConsistency pf;
     newInjectedContext := newInjectedContext pf;
     setDefaultTimeout := setDefaultTimeout pf;
     onPage := o;
     addCookies := addCookies pf;
     saveFingerprintData := saveFingerprintData pf |}.

(** The same platform with another settlement of the launch. *)
Definition with_launch (o : outcome unit) (pf : Platform) : Platform :=
  {| AUTO_INSTALL_BROWSERS := AUTO_INSTALL_BROWSERS pf;
     FORCE_HEADLESS := FORCE_HEADLESS pf;
     execSync := execSync pf;
     launch := o;
     loadSessionData := loadSessionData pf;
     updateFingerprintUserAgent := updateFingerprintUserAgent pf;
     validateFingerprintConsistency := validateFingerprintConsistency pf;
     newInjectedContext := newInjectedContext pf;
     setDefaultTimeout := setDefaultTimeout pf;
     onPage := onPage pf;
     addCookies := addCookies pf;
     saveFingerprintData := saveFingerprintData pf |}.

(** A platform whose stored session holds the fingerprint [fp]. *)
Definition with_session (fp : Fingerprint) (pf : Platform) : Platform :=
  {| AUTO_INSTALL_BROWSERS := AUTO_INSTALL_BROWSERS pf;
     FORCE_HEADLESS := FORCE_HEADLESS pf;
     execSync := execSync pf;
     launch := launch pf;
     loadSessionData := fun _ => Resolved {| cookies := ["c=1"]; fingerprint := Some fp |};
     updateFingerprintUserAgent := updateFingerprintUserAgent pf;
     validateFingerprintConsistency := validateFingerprintConsistency pf;
     newInjectedContext := newInjectedContext pf;
     setDefaultTimeout := setDefaultTimeout pf;
     onPage := onPage pf;
     addCookies := addCookies pf;
     saveFingerprintData := saveFingerprintData pf |}.

Definition sound : ValidationResult :=
  {| valid := true; criticalIssues := []; warnings := ["timezone/locale"] |}.

(* ------------------------------------------------------------------ *)
(** ** Browser.buildPlaywrightProxy                                     *)
(* ------------------------------------------------------------------ *)

(** interface/Account.ts is not among the sources; the four fields are
    those line 305 takes apart. The port is a number of the accounts
    file. *)
Record AccountProxy := {
  url : jstring;
  port : Z;
  username : string;
  password : string
}.

(** The three parts of a parsed URL the function reads. *)
Record URL := { protocol : string; hostname : string; url_port : string }.

(** The engine's URL class and number printing: [new URL(s)], which
    throws on what it cannot parse; the setter [parsed.port = v]; and
    [String(n)]. *)
Record UrlApi := {
  new_URL : jstring -> result URL;
  assign_port : URL -> string -> URL;
  String_of_number : Z -> string
}.

Record PlaywrightProxy := {
  server : string;
  auth_username : option string;
  auth_password : option string
}.

(** The two error lines the function can log. *)
Inductive proxy_log :=
| InvalidProxyUrl (given : jstring) (message : string)
| ProxyPortMissing (given : jstring).

Definition is_alpha (c : N) : bool :=
  ((65 <=? c) && (c <=? 90) || (97 <=? c) && (c <=? 122))%N.

Definition is_scheme_unit (c : N) : bool :=
  (is_alpha c || (48 <=? c) && (c <=? 57) || (c =? 43) || (c =? 46) || (c =? 45))%N.

(** [[a-zA-Z0-9+.-]*:] at the head of [s]; the colon is not in the class,
    so the star stops at the first unit outside it. *)
Fixpoint scheme_tail (s : jstring) : bool :=
  match s with
  | [] => false
  | c :: s' =>
      if (c =? 58)%N then true
      else if is_scheme_unit c then scheme_tail s' else false
  end.

(** Browser.ts:309, [/^[a-zA-Z][a-zA-Z0-9+.-]*:/.test(trimmed)] *)
Definition hasScheme (trimmed : jstring) : bool :=
  match trimmed with
  | [] => false
  | c :: s => is_alpha c && scheme_tail s
  end.

(** Browser.ts:308-310 *)
Definition candidate (given : jstring) : jstring :=
  if hasScheme (trim given) then trim given else js "http://" ++ trim given.

(** [s ? s : undefined] on a string. *)
Definition nonempty (s : string) : option string :=
  if String.eqb s EmptyString then None else Some s.

(** Browser.ts:329-335 *)
Definition proxy_of (parsed : URL) (proxy : AccountProxy) : PlaywrightProxy :=
  {| server := (protocol parsed ++ "//" ++ hostname parsed
                ++ (if String.eqb (url_port parsed) EmptyString then EmptyString
                    else ":" ++ url_port parsed))%string;
     auth_username := nonempty (username proxy);
     auth_password := nonempty (password proxy) |}.

(** Browser.ts:304-336: the result ([None] for [undefined]) and the error
    lines logged. *)
Definition buildPlaywrightProxy (api : UrlApi) (proxy : AccountProxy)
  : option PlaywrightProxy * list proxy_log :=
  match url proxy with
  | [] => (None, [])
  | _ =>
      match new_URL api (candidate (url proxy)) with
      | Throw err => (None, [InvalidProxyUrl (url proxy) (reason_of err)])
      | Ok parsed =>
          if String.eqb (url_port parsed) EmptyString then
            if BinInt.Z.eqb (port proxy) Z0
            then (None, [ProxyPortMissing (url proxy)])
            else (Some (proxy_of (assign_port api parsed
                                    (String_of_number api (port proxy))) proxy), [])
          else (Some (proxy_of parsed proxy), [])
      end
  end.

(** A parser for the samples: it knows one proxy address, with and
    without a port of its own. *)
Definition sample_api : UrlApi :=
  {| new_URL := fun s =>
       if list_eq_dec N.eq_dec s (js "http://proxy.example:3128")
       then Ok {| protocol := "http:"; hostname := "proxy.example"; url_port := "3128" |}
       else if list_eq_dec N.eq_dec s (js "http://proxy.example")
       then Ok {| protocol := "http:"; hostname := "proxy.example"; url_port := EmptyString |}
       else Throw (JsError "Invalid URL");
     assign_port := fun u p =>
       {| protocol := protocol u; hostname := hostname u; url_port := p |};
     String_of_number := fun n =>
       if BinInt.Z.eqb n (Zpos 8080) then "8080" else "0" |}.

Definition sample_proxy (given : string) (p : Z) (user pass : string) : AccountProxy :=
  {| url := js given; port := p; username := user; password := pass |}.

(* ------------------------------------------------------------------ *)
(** ** Humanizer.actionPause                                            *)
(* ------------------------------------------------------------------ *)

Section HumanizerModel.
Import QArith Qminmax.
Local Open Scope Q_scope.

(** Durations are the finite numbers of the configuration file and of
    [stringToMs]; comparing them and taking their minimum or maximum is
    exact, so they are rationals here. *)
Definition ms := Q.

(** A bound of the delay: [number | string]. *)
Inductive delay :=
| DelayNumber (n : ms)
| DelayString (s : string).

Record ActionDelay := { delayMin : delay; delayMax : delay }.

(** interface/Config.ts is not among the sources; the fields are those
    the two methods read. *)
Record ConfigHumanization := {
  enabled : option bool;
  actionDelay : option ActionDelay;
  gestureMoveProb : option Q;
  gestureScrollProb : option Q
}.

(** [Util], whose body is not among the sources: [stringToMs] returns a
    duration or throws, [randomNumber] draws, [wait] settles. *)
Record Util := {
  stringToMs : string -> result ms;
  randomNumber : ms -> ms -> ms;
  wait : ms -> outcome unit
}.

Inductive util_call :=
| RandomNumber (lo hi : ms)
| Wait (duration : ms).

Definition defMin : ms := 150.
Definition defMax : ms := 450.

(** part_000:44-53 *)
Definition parse (util : Util) (v : delay) : ms :=
  match v with
  | DelayNumber n => n
  | DelayString s =>
      match stringToMs util s with
      | Ok n => Qmax 0 (Qmin n 10000)
      | Throw _ => defMin
      end
  end.

(** part_000:39-58, the two arguments of [randomNumber]. *)
Definition pauseRange (util : Util) (cfg : option ConfigHumanization) : ms * ms :=
  match cfg with
  | Some c =>
      match actionDelay c with
      | Some d =>
          let lo := parse util (delayMin d) in
          let hi := parse util (delayMax d) in
          let (lo', hi') := if negb (Qle_bool lo hi) then (hi, lo) else (lo, hi) in
          (lo', Qmin hi' 5000)
      | None => (defMin, defMax)
      end
  | None => (defMin, defMax)
  end.

(** part_000:38, [this.cfg && this.cfg.enabled === false] *)
Definition disabled (cfg : option ConfigHumanization) : bool :=
  match cfg with
  | Some c => match enabled c with Some false => true | _ => false end
  | None => false
  end.

(** part_000:37-60: how the promise settles and the calls made on [util]. *)
Definition actionPause (util : Util) (cfg : option ConfigHumanization)
  : result unit * list util_call :=
  if disabled cfg then (Ok tt, [])
  else
    let (lo, hi) := pauseRange util cfg in
    let duration := randomNumber util lo hi in
    (match wait util duration with
     | Resolved _ => Ok tt
     | Rejected r => Throw (Foreign r)
     end,
     [RandomNumber lo hi; Wait duration]).

(** A [Util] for the samples: "6s" and "8s" parse, nothing else does; the
    draw is the lower bound. *)
Definition sample_util : Util :=
  {| stringToMs := fun s =>
       if String.eqb s "6s" then Ok 6000
       else if String.eqb s "8s" then Ok 8000
       else Throw (JsError "The string provided cannot be parsed to a valid time!");
     randomNumber := fun lo _ => lo;
     wait := fun _ => Resolved tt |}.

Definition with_delay (lo hi : delay) : option ConfigHumanization :=
  Some {| enabled := None;
          actionDelay := Some {| delayMin := lo; delayMax := hi |};
          gestureMoveProb := None;
          gestureScrollProb := None |}.

End HumanizerModel.

(** The least number of units [re] can match. *)
Fixpoint least_length (re : regex) : nat :=
  match re with
  | [] => 0
  | Chr _ :: re' => S (least_length re')
  | OptClass _ :: re' => least_length re'
  end.
(* ================================================================== *)
(** * Properties                                                        *)
(* ================================================================== *)

(** ** Histories *)

Lemma record_all_app (evs1 evs2 : list event) (w : World) :
  record_all (evs1 ++ evs2) w = record_all evs2 (record_all evs1 w).
Proof. unfold record_all. apply fold_left_app. Qed.

Lemma history_record_all (evs : list event) (w : World) :
  history (record_all evs w) = history w ++ evs.
Proof.
  revert w. induction evs as [| e evs IH]; intro w; simpl.
  - now rewrite app_nil_r.
  - rewrite IH. simpl. now rewrite <- app_assoc.
Qed.

Lemma same_bot_refl (w : World) : same_bot w w.
Proof. repeat split. Qed.

Lemma same_bot_trans (w1 w2 w3 : World) :
  same_bot w1 w2 -> same_bot w2 w3 -> same_bot w1 w3.
Proof.
  unfold same_bot. intros (A1 & A2 & A3 & A4 & A5) (B1 & B2 & B3 & B4 & B5).
  repeat split; congruence.
Qed.

Lemma same_bot_record_all (evs : list event) (w : World) :
  same_bot w (record_all evs w).
Proof.
  revert w. induction evs as [| e evs IH]; intro w; simpl.
  - apply same_bot_refl.
  - eapply same_bot_trans; [| apply IH]. repeat split.
Qed.

Lemma already_blocked_record_all (evs : list event) (w : World) :
  already_blocked (record_all evs w) = already_blocked w.
Proof.
  destruct (same_bot_record_all evs w) as (A & B & _).
  unfold already_blocked. now rewrite A, B.
Qed.

Lemma waits_app (evs1 evs2 : list event) :
  waits (evs1 ++ evs2) = waits evs1 ++ waits evs2.
Proof.
  induction evs1 as [| e evs1 IH]; simpl; [reflexivity |].
  destruct e; simpl; now rewrite ?IH.
Qed.

Lemma alerts_app (evs1 evs2 : list event) :
  alerts (evs1 ++ evs2) = alerts evs1 ++ alerts evs2.
Proof.
  induction evs1 as [| e evs1 IH]; simpl; [reflexivity |].
  destruct e; simpl; now rewrite ?IH.
Qed.

Lemma engagements_app (evs1 evs2 : list event) :
  engagements (evs1 ++ evs2) = engagements evs1 ++ engagements evs2.
Proof.
  induction evs1 as [| e evs1 IH]; simpl; [reflexivity |].
  destruct e; simpl; now rewrite ?IH.
Qed.

(** ** The probing loop *)

Lemma probe_eq (page : Page) (text : jstring) (sel : string) (w : World) :
  probe page text sel w
  = (probe_value page text sel, record_all (probe_events page sel) w).
Proof.
  unfold probe, probe_value, probe_events, settle_wait, page_waitForSelector,
    el_textContent, try_catch, bind, emit, modify, await, ret, throw.
  destruct (waitForSelector page sel 600) as [[el |] | r]; simpl; try reflexivity.
  destruct (textContent el) as [c | r]; simpl; try reflexivity.
  destruct (contributes (trim (or_empty c))); reflexivity.
Qed.

Lemma probe_value_throws (page : Page) (text text' : jstring) (sel : string) (e : exn) :
  probe_value page text sel = Throw e -> probe_value page text' sel = Throw e.
Proof.
  unfold probe_value. destruct (settle_wait page sel) as [el |]; [| discriminate].
  destruct (textContent el); [discriminate | auto].
Qed.

Lemma probe_value_returns (page : Page) (text text' : jstring) (sel : string) (t : jstring) :
  probe_value page text sel = Ok t -> exists t', probe_value page text' sel = Ok t'.
Proof.
  unfold probe_value. destruct (settle_wait page sel) as [el |]; [| eauto].
  destruct (textContent el); [eauto | discriminate].
Qed.

Lemma probeHeadings_eq (page : Page) (sels : list string) (text : jstring) (w : World) :
  probeHeadings page sels text w
  = (gather_value page sels text, record_all (gather_events page sels) w).
Proof.
  revert text w. induction sels as [| sel sels IH]; intros text w; simpl.
  - reflexivity.
  - unfold bind. rewrite probe_eq.
    destruct (probe_value page text sel) as [text' | e] eqn:E.
    + destruct (probe_value_returns page text [] sel E) as [t' ->].
      rewrite IH, record_all_app. reflexivity.
    + rewrite (probe_value_throws page text [] sel E), app_nil_r. reflexivity.
Qed.

(** ** The confirmed path *)

Lemma pattern_detail_label (l : string) :
  truthy (Some l) = true -> pattern_detail (Some l) = ("Pattern: " ++ l)%string.
Proof.
  unfold truthy, pattern_detail. destruct (String.eqb l EmptyString); [discriminate | reflexivity].
Qed.

Lemma confirm_resolved (c : Collaborators) (w : World) (l : string) (d : delivery) :
  truthy (Some l) = true ->
  sendIncidentAlert c (incident_of c w l) "warn" = Resolved d ->
  confirm c (Some l) w = (Ok true, confirm_world c w l).
Proof.
  intros T A.
  unfold confirm, bind, get, securityUtils_sendIncidentAlert, bind, emit, modify.
  rewrite (pattern_detail_label l T). fold (incident_of c w l). rewrite A.
  unfold confirm_world, confirm_events, try_catch, bot_engageGlobalStandby,
    securityUtils_openDocsTab, logError, log, bind, get, emit, modify, await, ret, throw.
  simpl.
  destruct (engageGlobalStandby c SIGN_IN_BLOCKED (or_default (currentAccountEmail w) "unknown"));
    destruct (openDocsTab c (getDocsUrl c "we-cant-sign-you-in")); simpl;
    unfold record, set_globalStandby; simpl; rewrite <- ?app_assoc; reflexivity.
Qed.

Lemma history_confirm_world (c : Collaborators) (w : World) (l : string) :
  history (confirm_world c w l) = history w ++ confirm_events c w l.
Proof. reflexivity. Qed.

Lemma globalStandby_confirm_world (c : Collaborators) (w : World) (l : string) :
  globalStandby (confirm_world c w l)
  = match engageGlobalStandby c SIGN_IN_BLOCKED
            (or_default (currentAccountEmail w) "unknown") with
    | Resolved _ => Some (SIGN_IN_BLOCKED, or_default (currentAccountEmail w) "unknown")
    | Rejected _ => globalStandby w
    end.
Proof. reflexivity. Qed.

Lemma flags_confirm_world (c : Collaborators) (w : World) (l : string) :
  compromisedModeActive (confirm_world c w l) = true
  /\ compromisedReason (confirm_world c w l) = Some SIGN_IN_BLOCKED
  /\ currentAccountEmail (confirm_world c w l) = currentAccountEmail w
  /\ isMobile (confirm_world c w l) = isMobile w.
Proof. repeat split. Qed.

Lemma confirm_rejected (c : Collaborators) (w : World) (l : string) (r : string) :
  truthy (Some l) = true ->
  sendIncidentAlert c (incident_of c w l) "warn" = Rejected r ->
  confirm c (Some l) w
  = (Throw (Foreign r), record (SendIncidentAlert (incident_of c w l) "warn") w).
Proof.
  intros T A.
  unfold confirm, bind, get, securityUtils_sendIncidentAlert, bind, emit, modify.
  rewrite (pattern_detail_label l T). fold (incident_of c w l). rewrite A.
  reflexivity.
Qed.

(** ** The pattern table *)

Lemma first_match_sound (ps : list pattern) (lower : jstring) (l : string) :
  first_match ps lower = Some l ->
  exists i p,
    nth_error ps i = Some p /\ label p = l /\ test (re p) lower = true
    /\ forall j q, j < i -> nth_error ps j = Some q -> test (re q) lower = false.
Proof.
  induction ps as [| p ps IH]; simpl; [discriminate |].
  destruct (test (re p) lower) eqn:T.
  - intros [= <-]. exists 0, p. repeat split; auto. intros j q Hj. lia.
  - intros H. destruct (IH H) as (i & q & Hn & Hl & Ht & Hfirst).
    exists (S i), q. repeat split; auto.
    intros [| j] q' Hj; simpl.
    + now intros [= <-].
    + apply Hfirst. lia.
Qed.

Lemma first_match_earliest (ps : list pattern) (lower : jstring) (i : nat) (p : pattern) :
  nth_error ps i = Some p ->
  test (re p) lower = true ->
  (forall j q, j < i -> nth_error ps j = Some q -> test (re q) lower = false) ->
  first_match ps lower = Some (label p).
Proof.
  revert i. induction ps as [| q ps IH]; intros [| i]; simpl; try discriminate.
  - intros [= ->] -> _. reflexivity.
  - intros Hn Ht Hfirst.
    rewrite (Hfirst 0 q); [| lia | reflexivity].
    apply (IH i); auto. intros j q' Hj Hq. apply (Hfirst (S j)); [lia | exact Hq].
Qed.

Lemma first_match_none (ps : list pattern) (lower : jstring) :
  first_match ps lower = None <-> forall p, In p ps -> test (re p) lower = false.
Proof.
  induction ps as [| p ps IH]; simpl.
  - split; [intros _ q [] | reflexivity].
  - destruct (test (re p) lower) eqn:T; split.
    + discriminate.
    + intros H. rewrite (H p) in T; [discriminate | now left].
    + intros H q [<- | Hq]; [exact T | now apply IH].
    + intros H. apply IH. intros q Hq. apply H. now right.
Qed.

(** Every label of the table is a non-empty string, so [!matched] holds
    for [null] only. *)
Lemma table_labels_truthy (lower : jstring) (l : string) :
  first_match SIGN_IN_BLOCK_PATTERNS lower = Some l -> truthy (Some l) = true.
Proof.
  intros H. destruct (first_match_sound _ _ H) as (i & p & Hn & <- & _).
  do 5 (destruct i as [| i]; [simpl in Hn; injection Hn as <-; reflexivity |]).
  destruct i; discriminate.
Qed.

Lemma table_rejects_empty : first_match SIGN_IN_BLOCK_PATTERNS [] = None.
Proof. reflexivity. Qed.

(** ** The five ways a check ends *)

Section DetectorFacts.
Context {engine : JsEngine}.

Lemma incident_of_record_all (c : Collaborators) (evs : list event) (w : World) (l : string) :
  incident_of c (record_all evs w) l = incident_of c w l.
Proof.
  destruct (same_bot_record_all evs w) as (_ & _ & E & _).
  unfold incident_of. now rewrite E.
Qed.

Lemma detect_fast (c : Collaborators) (page : Page) (w : World) :
  already_blocked w = true -> detectSignInBlocked c page w = (Ok true, w).
Proof. intros B. unfold detectSignInBlocked, bind, get. now rewrite B. Qed.

Lemma detect_probe_throws (c : Collaborators) (page : Page) (w : World) (e : exn) :
  already_blocked w = false ->
  gather_value page HEADING_SELECTORS [] = Throw e ->
  detectSignInBlocked c page w
  = (Ok false, record_all (gather_events page HEADING_SELECTORS) w).
Proof.
  intros B G. unfold detectSignInBlocked, bind, get. rewrite B.
  unfold try_catch, scan, bind. rewrite probeHeadings_eq, G. reflexivity.
Qed.

Lemma detect_no_match (c : Collaborators) (page : Page) (w : World) (text : jstring) :
  already_blocked w = false ->
  gather_value page HEADING_SELECTORS [] = Ok text ->
  first_match SIGN_IN_BLOCK_PATTERNS (toLowerCase text) = None ->
  detectSignInBlocked c page w
  = (Ok false, record_all (gather_events page HEADING_SELECTORS) w).
Proof.
  intros B G F. unfold detectSignInBlocked, bind, get. rewrite B.
  unfold try_catch, scan, bind. rewrite probeHeadings_eq, G, F. reflexivity.
Qed.

Lemma detect_match_resolved (c : Collaborators) (page : Page) (w : World)
  (text : jstring) (l : string) (d : delivery) :
  already_blocked w = false ->
  gather_value page HEADING_SELECTORS [] = Ok text ->
  first_match SIGN_IN_BLOCK_PATTERNS (toLowerCase text) = Some l ->
  sendIncidentAlert c (incident_of c w l) "warn" = Resolved d ->
  detectSignInBlocked c page w
  = (Ok true, confirm_world c (record_all (gather_events page HEADING_SELECTORS) w) l).
Proof.
  intros B G F A. unfold detectSignInBlocked, bind, get. rewrite B.
  unfold try_catch, scan, bind. rewrite probeHeadings_eq, G, F.
  rewrite (table_labels_truthy _ F). simpl negb. cbv iota.
  rewrite (@confirm_resolved c _ l d); auto.
  - exact (table_labels_truthy _ F).
  - now rewrite incident_of_record_all.
Qed.

Lemma detect_match_rejected (c : Collaborators) (page : Page) (w : World)
  (text : jstring) (l : string) (r : string) :
  already_blocked w = false ->
  gather_value page HEADING_SELECTORS [] = Ok text ->
  first_match SIGN_IN_BLOCK_PATTERNS (toLowerCase text) = Some l ->
  sendIncidentAlert c (incident_of c w l) "warn" = Rejected r ->
  detectSignInBlocked c page w
  = (Ok false,
     record (SendIncidentAlert (incident_of c w l) "warn")
            (record_all (gather_events page HEADING_SELECTORS) w)).
Proof.
  intros B G F A. unfold detectSignInBlocked, bind, get. rewrite B.
  unfold try_catch, scan, bind. rewrite probeHeadings_eq, G, F.
  rewrite (table_labels_truthy _ F). simpl negb. cbv iota.
  rewrite (@confirm_rejected c _ l r); auto.
  - now rewrite incident_of_record_all.
  - exact (table_labels_truthy _ F).
  - now rewrite incident_of_record_all.
Qed.

End DetectorFacts.

(* ------------------------------------------------------------------ *)
(** ** Classification                                                   *)
(* ------------------------------------------------------------------ *)

(** C3. Classification over the ordered pattern table is first-match-wins.
    For any lower-cased text: (1) a rule that matches while no rule before
    it does gives the label; (2) when two rules at positions i < j both
    match, the label comes from a rule at a position not after i (never
    from the later one because of its place); (3) when no rule matches the
    classification yields nothing, and a check whose aggregated text
    lower-cases to that text returns false. The result is a function of
    the text alone. *)
Theorem first_match_wins (lower : jstring) :
  (forall i p,
      nth_error SIGN_IN_BLOCK_PATTERNS i = Some p ->
      test (re p) lower = true ->
      (forall j q, j < i -> nth_error SIGN_IN_BLOCK_PATTERNS j = Some q ->
                   test (re q) lower = false) ->
      first_match SIGN_IN_BLOCK_PATTERNS lower = Some (label p))
  /\ (forall i j p q,
         i < j ->
         nth_error SIGN_IN_BLOCK_PATTERNS i = Some p ->
         nth_error SIGN_IN_BLOCK_PATTERNS j = Some q ->
         test (re p) lower = true ->
         test (re q) lower = true ->
         exists k r,
           k <= i /\ nth_error SIGN_IN_BLOCK_PATTERNS k = Some r
           /\ test (re r) lower = true
           /\ first_match SIGN_IN_BLOCK_PATTERNS lower = Some (label r))
  /\ ((forall p, In p SIGN_IN_BLOCK_PATTERNS -> test (re p) lower = false) ->
      first_match SIGN_IN_BLOCK_PATTERNS lower = None
      /\ forall (engine : JsEngine) c page w text,
           already_blocked w = false ->
           gather_value page HEADING_SELECTORS [] = Ok text ->
           toLowerCase text = lower ->
           fst (detectSignInBlocked c page w) = Ok false).
Proof.
  split; [| split].
  - intros i p Hn Ht Hfirst. now apply first_match_earliest with (i := i).
  - intros i j p q Hij Hp Hq Tp Tq.
    destruct (first_match SIGN_IN_BLOCK_PATTERNS lower) as [l |] eqn:F.
    + destruct (first_match_sound _ _ F) as (k & r & Hk & Hl & Tr & Hfirst).
      exists k, r. repeat split; auto; [| now rewrite Hl].
      destruct (Nat.le_gt_cases k i) as [Hle | Hgt]; [exact Hle |].
      rewrite (Hfirst i p Hgt Hp) in Tp. discriminate.
    + apply first_match_none with (p := p) in F; [congruence |].
      eapply nth_error_In; eauto.
  - intros Hnone. assert (F : first_match SIGN_IN_BLOCK_PATTERNS lower = None)
      by now apply first_match_none.
    split; [exact F |].
    intros engine c page w text B G <-.
    now rewrite (detect_no_match c page w B G F).
Qed.

(** The wording of the lockout page, on every engine. *)
Example sign_in_blocked_wording {engine : JsEngine} :
  first_match SIGN_IN_BLOCK_PATTERNS (toLowerCase (js "We can't sign you in right now"))
  = Some "cant-sign-in".
Proof. rewrite toLowerCase_ascii; reflexivity. Qed.

(** A text that matches the second and the third rule is labelled by the
    second. *)
Lemma first_match_wins_witness :
  first_match SIGN_IN_BLOCK_PATTERNS
    (js "you've used an incorrect account or password too many times")
  = Some "too-many-incorrect"
  /\ fst (detectSignInBlocked cooperative empty_page (fresh "a@x")) = Ok false.
Proof.
  pose proof (first_match_wins
    (js "you've used an incorrect account or password too many times"))
    as (_ & Hoverlap & _).
  pose proof (first_match_wins []) as (_ & _ & Hnone).
  split.
  - destruct (Hoverlap 1 2 _ _ ltac:(lia) eq_refl eq_refl eq_refl eq_refl)
      as (k & r & Hk & Hr & Tr & ->).
    destruct k as [| [| k]]; [| | lia]; simpl in Hr; injection Hr as <-.
    + discriminate Tr.
    + reflexivity.
  - apply Hnone with (text := []).
    + intros p Hp. simpl in Hp.
      repeat (destruct Hp as [<- | Hp]; [reflexivity |]). destruct Hp.
    + reflexivity.
    + reflexivity.
    + reflexivity.
Defined.

(* ------------------------------------------------------------------ *)
(** ** How a check ends                                                 *)
(* ------------------------------------------------------------------ *)

Section Endings.
Context {engine : JsEngine}.

Lemma detect_ending (c : Collaborators) (page : Page) (w : World) :
  ending c page w (detectSignInBlocked c page w).
Proof.
  destruct (already_blocked w) eqn:B.
  - rewrite detect_fast by exact B. now constructor.
  - destruct (gather_value page HEADING_SELECTORS []) as [text | e] eqn:G.
    + destruct (first_match SIGN_IN_BLOCK_PATTERNS (toLowerCase text)) as [l |] eqn:F.
      * destruct (sendIncidentAlert c (incident_of c w l) "warn") as [d | r] eqn:A.
        -- rewrite (detect_match_resolved c page w B G F A). eapply EndConfirmed; eauto.
        -- rewrite (detect_match_rejected c page w B G F A). eapply EndUnsent; eauto.
      * rewrite (detect_no_match c page w B G F). eapply EndNoMatch; eauto.
    + rewrite (detect_probe_throws c page w B G). eapply EndUnread; eauto.
Qed.

(** A check never throws. *)
Lemma detect_returns_bool (c : Collaborators) (page : Page) (w : World) :
  exists b, fst (detectSignInBlocked c page w) = Ok b.
Proof. destruct (detect_ending c page w); simpl; eauto. Qed.

Lemma confirm_world_blocked (c : Collaborators) (w : World) (l : string) :
  already_blocked (confirm_world c w l) = true.
Proof. reflexivity. Qed.

(** A check that returns true leaves the early return armed. *)
Lemma detect_true_blocked (c : Collaborators) (page : Page) (w w' : World) :
  detectSignInBlocked c page w = (Ok true, w') -> already_blocked w' = true.
Proof.
  intros E. destruct (detect_ending c page w) as [B | | | |];
    try discriminate; injection E as <-; auto.
Qed.

End Endings.

Lemma checkAccountLocked_eq (page : Page) (w : World) :
  checkAccountLocked page w
  = (match waitForSelector page LOCKED_SELECTOR 1200 with
     | Resolved _ => Throw (JsError LOCKED_MESSAGE)
     | Rejected _ => Ok tt
     end,
     record_all (check_events page w) w).
Proof.
  unfold checkAccountLocked, check_events, page_waitForSelector, log, try_catch,
    bind, get, emit, modify, await, ret, throw.
  destruct (waitForSelector page LOCKED_SELECTOR 1200); reflexivity.
Qed.

Lemma check_events_quiet (page : Page) (w : World) :
  alerts (check_events page w) = [] /\ engagements (check_events page w) = [].
Proof.
  unfold check_events. destruct (waitForSelector page LOCKED_SELECTOR 1200); split; reflexivity.
Qed.

(* ------------------------------------------------------------------ *)
(** ** The hard lock                                                    *)
(* ------------------------------------------------------------------ *)

(** C1. On every page where the wait for '#serviceAbuseLandingTitle'
    resolves, [checkAccountLocked] throws the account-locked error; it has
    only waited for the selector and logged: the compromised flags, the
    account and the standby are untouched, no incident alert was
    dispatched and no standby engagement was asked for. The error differs
    from every other outcome of the detector: a sign-in check always
    returns a boolean, and [checkAccountLocked] either returns or throws
    exactly this error. *)
Theorem checkAccountLocked_raises (page : Page) (w : World) (el : option ElementHandle) :
  waitForSelector page LOCKED_SELECTOR 1200 = Resolved el ->
  fst (checkAccountLocked page w) = Throw (JsError LOCKED_MESSAGE)
  /\ same_bot w (snd (checkAccountLocked page w))
  /\ history (snd (checkAccountLocked page w))
     = history w
       ++ [ WaitForSelector LOCKED_SELECTOR 1200;
            Log (isMobile w) "CHECK-LOCKED"
                "Account locked by Microsoft (serviceAbuseLandingTitle)" "error" ]
  /\ alerts (history (snd (checkAccountLocked page w))) = alerts (history w)
  /\ engagements (history (snd (checkAccountLocked page w))) = engagements (history w)
  /\ (forall (engine : JsEngine) c p v,
         exists b, fst (detectSignInBlocked c p v) = Ok b)
  /\ (forall p v,
         fst (checkAccountLocked p v) = Ok tt
         \/ fst (checkAccountLocked p v) = Throw (JsError LOCKED_MESSAGE)).
Proof.
  intros Hlocked. rewrite checkAccountLocked_eq. cbn [fst snd].
  assert (Hev : check_events page w
                = [ WaitForSelector LOCKED_SELECTOR 1200;
                    Log (isMobile w) "CHECK-LOCKED"
                        "Account locked by Microsoft (serviceAbuseLandingTitle)" "error" ])
    by (unfold check_events; now rewrite Hlocked).
  rewrite Hlocked, history_record_all, alerts_app, engagements_app.
  destruct (check_events_quiet page w) as [-> ->]. rewrite !app_nil_r.
  split; [reflexivity |].
  split; [apply same_bot_record_all |].
  split; [now rewrite Hev |].
  split; [reflexivity |].
  split; [reflexivity |].
  split.
  - intros engine c p v. apply detect_returns_bool.
  - intros p v. rewrite checkAccountLocked_eq. cbn [fst].
    destruct (waitForSelector p LOCKED_SELECTOR 1200); auto.
Qed.

Lemma checkAccountLocked_raises_witness :
  fst (checkAccountLocked locked_page (fresh "a@x")) = Throw (JsError LOCKED_MESSAGE).
Proof.
  eapply (checkAccountLocked_raises locked_page (fresh "a@x")).
  reflexivity.
Defined.

(* ------------------------------------------------------------------ *)
(** ** The early return                                                 *)
(* ------------------------------------------------------------------ *)

Lemma already_blocked_iff (w : World) :
  already_blocked w = true
  <-> compromisedModeActive w = true /\ compromisedReason w = Some SIGN_IN_BLOCKED.
Proof.
  unfold already_blocked. destruct (compromisedModeActive w); simpl.
  - destruct (compromisedReason w) as [r |].
    + rewrite String.eqb_eq. split; [intros ->; auto | intros [_ [= ->]]; reflexivity].
    + split; [discriminate | intros [_ [=]]].
  - split; [discriminate | intros [[=] _]].
Qed.


Lemma gather_events_headings (page : Page) :
  exists evs,
    gather_events page HEADING_SELECTORS
    = WaitForSelector (hd EmptyString HEADING_SELECTORS) 600 :: evs.
Proof.
  unfold HEADING_SELECTORS. cbn [gather_events hd].
  unfold probe_events at 1. cbn [app]. eauto.
Qed.

Lemma gather_events_quiet (page : Page) (sels : list string) :
  alerts (gather_events page sels) = [] /\ engagements (gather_events page sels) = [].
Proof.
  induction sels as [| s sels [IHa IHe]]; [split; reflexivity |].
  cbn [gather_events]. rewrite alerts_app, engagements_app.
  unfold probe_events at 1 2.
  destruct (settle_wait page s); destruct (probe_value page [] s);
    cbn [alerts engagements app]; rewrite ?IHa, ?IHe; split; reflexivity.
Qed.

Section EarlyReturn.
Context {engine : JsEngine}.

(** What a check adds to the history; a check that scans adds the wait for
    the first selector at least. *)
Lemma detect_history (c : Collaborators) (page : Page) (w : World) :
  exists evs,
    history (snd (detectSignInBlocked c page w)) = history w ++ evs
    /\ (already_blocked w = false -> evs <> []).
Proof.
  destruct (gather_events_headings page) as [tl Htl].
  destruct (detect_ending c page w) as [B | e B G | text B G F | text l r B G F A | text l d B G F A];
    cbn [snd].
  - exists []. rewrite app_nil_r. split; [reflexivity | congruence].
  - exists (gather_events page HEADING_SELECTORS).
    rewrite history_record_all, Htl. split; [reflexivity | discriminate].
  - exists (gather_events page HEADING_SELECTORS).
    rewrite history_record_all, Htl. split; [reflexivity | discriminate].
  - exists (gather_events page HEADING_SELECTORS
            ++ [SendIncidentAlert (incident_of c w l) "warn"]).
    cbn [record history]. rewrite history_record_all, Htl, app_assoc.
    split; [reflexivity | discriminate].
  - eexists (gather_events page HEADING_SELECTORS ++ _).
    cbn [confirm_world history]. rewrite history_record_all, Htl, app_assoc.
    split; [reflexivity | discriminate].
Qed.

Lemma detect_unchanged_blocked (c : Collaborators) (page : Page) (w : World) (r : result bool) :
  detectSignInBlocked c page w = (r, w) -> already_blocked w = true.
Proof.
  intros E. destruct (already_blocked w) eqn:B; [reflexivity | exfalso].
  destruct (detect_history c page w) as (evs & H & Hne).
  rewrite E in H. cbn [snd] in H.
  apply Hne; [exact B |].
  apply (f_equal (@List.length event)) in H. rewrite length_app in H.
  destruct evs; [reflexivity | simpl in H; lia].
Qed.

(** C2, as the code has it. When the compromised flag is set and the
    compromised reason is 'sign-in-blocked', a check returns true and
    leaves the bot and the history of calls as they were: no selector is
    waited for, no alert is dispatched. That early return is taken exactly
    when these two fields say so; the current account is not compared with
    anything. *)
Theorem early_return_iff (c : Collaborators) (page : Page) (w : World) :
  (compromisedModeActive w = true /\ compromisedReason w = Some SIGN_IN_BLOCKED ->
   detectSignInBlocked c page w = (Ok true, w))
  /\ (detectSignInBlocked c page w = (Ok true, w)
      <-> compromisedModeActive w = true /\ compromisedReason w = Some SIGN_IN_BLOCKED)
  /\ (forall email,
         compromisedModeActive w = true /\ compromisedReason w = Some SIGN_IN_BLOCKED ->
         detectSignInBlocked c page (set_currentAccountEmail email w)
         = (Ok true, set_currentAccountEmail email w)).
Proof.
  split; [| split].
  - intros H. apply detect_fast. now apply already_blocked_iff.
  - split.
    + intros E. apply already_blocked_iff. eapply detect_unchanged_blocked; eauto.
    + intros H. apply detect_fast. now apply already_blocked_iff.
  - intros email H. apply detect_fast. apply already_blocked_iff. exact H.
Qed.

End EarlyReturn.

Lemma early_return_iff_witness :
  detectSignInBlocked cooperative empty_page moved_on = (Ok true, moved_on).
Proof.
  apply (proj1 (early_return_iff cooperative empty_page moved_on)).
  split; reflexivity.
Defined.

(** C2 as stated fails: the lockout was confirmed and reported for a@x;
    the bot then works on b@x, and a check on a page without any heading
    still returns true on the early return. *)
Lemma early_return_ignores_account :
  incidentAccount moved_on = Some "a@x"
  /\ currentState moved_on = GlobalStandby "sign-in-blocked" "a@x"
  /\ currentAccountEmail moved_on = Some "b@x"
  /\ detectSignInBlocked cooperative empty_page moved_on = (Ok true, moved_on)
  /\ ~ (forall (engine : JsEngine) c page w,
           detectSignInBlocked c page w = (Ok true, w) ->
           incidentAccount w = Some (or_default (currentAccountEmail w) "unknown")
           /\ compromisedReason w = Some SIGN_IN_BLOCKED).
Proof.
  repeat split.
  intros H.
  destruct (H ascii_engine cooperative empty_page moved_on eq_refl) as [A _].
  discriminate A.
Qed.

(* ------------------------------------------------------------------ *)
(** ** Escalation                                                       *)
(* ------------------------------------------------------------------ *)

Section Escalation.
Context {engine : JsEngine}.






End Escalation.



(* ------------------------------------------------------------------ *)
(** ** Repeated checks                                                  *)
(* ------------------------------------------------------------------ *)

Section Repeated.
Context {engine : JsEngine}.

(** While the early return is armed, no call disarms it, every check
    returns true and no alert is dispatched. *)
Lemma perform_blocked (k : call) (w : World) :
  already_blocked w = true ->
  true_if_detect (fst (perform k w)) = true
  /\ already_blocked (snd (perform k w)) = true
  /\ alerts (history (snd (perform k w))) = alerts (history w).
Proof.
  intros B. destruct k as [c page | page | email]; cbn [perform].
  - rewrite (detect_fast c page w B). auto.
  - rewrite checkAccountLocked_eq. cbn [fst snd true_if_detect].
    rewrite already_blocked_record_all, history_record_all, alerts_app.
    rewrite (proj1 (check_events_quiet page w)), app_nil_r. auto.
  - cbn [fst snd true_if_detect]. auto.
Qed.

Lemma run_blocked (ks : list call) (w : World) :
  already_blocked w = true ->
  forallb true_if_detect (fst (run ks w)) = true
  /\ already_blocked (snd (run ks w)) = true
  /\ alerts (history (snd (run ks w))) = alerts (history w).
Proof.
  revert w. induction ks as [| k ks IH]; intros w B; cbn [run].
  - auto.
  - destruct (perform_blocked k w B) as (Hr & Hb & Ha).
    destruct (perform k w) as [r w1]. cbn [fst snd] in *.
    destruct (IH w1 Hb) as (Hrs & Hbs & Has).
    destruct (run ks w1) as [rs w2]. cbn [fst snd forallb] in *.
    rewrite Hr, Hrs, Has, Ha. auto.
Qed.

(** The alerts one check dispatches: none on the early return, at most
    one otherwise. *)
Lemma detect_alerts (c : Collaborators) (page : Page) (w : World) :
  exists sent,
    alerts (history (snd (detectSignInBlocked c page w))) = alerts (history w) ++ sent
    /\ List.length sent <= 1
    /\ (already_blocked w = true -> sent = []).
Proof.
  pose proof (proj1 (gather_events_quiet page HEADING_SELECTORS)) as Hq.
  destruct (detect_ending c page w) as [B | e B G | text B G F | text l r B G F A | text l d B G F A];
    unfold snd.
  - exists []. rewrite app_nil_r. auto.
  - exists []. rewrite history_record_all, alerts_app, Hq. split; [reflexivity |].
    split; [simpl; lia | reflexivity].
  - exists []. rewrite history_record_all, alerts_app, Hq. split; [reflexivity |].
    split; [simpl; lia | reflexivity].
  - exists [incident_of c w l].
    change (history (record (SendIncidentAlert (incident_of c w l) "warn")
                            (record_all (gather_events page HEADING_SELECTORS) w)))
      with (history (record_all (gather_events page HEADING_SELECTORS) w)
            ++ [SendIncidentAlert (incident_of c w l) "warn"]).
    rewrite history_record_all, !alerts_app, Hq, app_nil_r.
    split; [reflexivity |]. split; [simpl; lia | congruence].
  - exists [incident_of c w l].
    rewrite history_confirm_world, history_record_all, !alerts_app, Hq, app_nil_r.
    split; [| split; [simpl; lia | congruence]].
    f_equal. unfold confirm_events. rewrite incident_of_record_all.
    destruct (engageGlobalStandby c SIGN_IN_BLOCKED _); destruct (openDocsTab c _);
      reflexivity.
Qed.

(** C8. Once a check has returned true, every later check returns true,
    whatever page it is given and whatever account the bot has moved to,
    and none of the later calls dispatches an alert: with the at most one
    alert of the confirming check itself, at most one alert is dispatched
    for the incident. (Nothing in the detector clears the flags; a reset
    is not among its calls.) *)
Theorem detect_idempotent (c : Collaborators) (page : Page) (w w' : World) (ks : list call) :
  detectSignInBlocked c page w = (Ok true, w') ->
  forallb true_if_detect (fst (run ks w')) = true
  /\ alerts (history (snd (run ks w'))) = alerts (history w')
  /\ List.length (alerts (history (snd (run ks w'))))
     <= S (List.length (alerts (history w)))
  /\ forall c' page', detectSignInBlocked c' page' w' = (Ok true, w').
Proof.
  intros E. pose proof (detect_true_blocked c page w E) as B.
  destruct (run_blocked ks w' B) as (Hr & _ & Ha).
  split; [exact Hr |]. split; [exact Ha |]. split.
  - rewrite Ha. destruct (detect_alerts c page w) as (sent & Hs & Hlen & _).
    rewrite E in Hs. unfold snd in Hs. rewrite Hs, length_app. lia.
  - intros c' page'. now apply detect_fast.
Qed.

End Repeated.

Lemma detect_idempotent_witness :
  forallb true_if_detect
    (fst (run [ Detect cooperative empty_page;
                SwitchAccount (Some "b@x");
                Detect cooperative blocked_page;
                CheckLocked locked_page;
                Detect cooperative blocked_page ] after_lockout)) = true
  /\ List.length
       (alerts (history
         (snd (run [ Detect cooperative empty_page;
                     SwitchAccount (Some "b@x");
                     Detect cooperative blocked_page;
                     CheckLocked locked_page;
                     Detect cooperative blocked_page ] after_lockout)))) <= 1.
Proof.
  pose proof (detect_idempotent cooperative blocked_page (fresh "a@x")
                (w' := after_lockout)
                [ Detect cooperative empty_page;
                  SwitchAccount (Some "b@x");
                  Detect cooperative blocked_page;
                  CheckLocked locked_page;
                  Detect cooperative blocked_page ] eq_refl) as (H1 & _ & H3 & _).
  split; [exact H1 | exact H3].
Defined.

(* ------------------------------------------------------------------ *)
(** ** Probing the headings                                             *)
(* ------------------------------------------------------------------ *)

Lemma contributes_iff (t : jstring) :
  contributes t = true <-> t <> [] /\ List.length t < 300.
Proof.
  unfold contributes. destruct t as [| u t].
  - split; [discriminate | intros [H _]; now elim H].
  - rewrite Nat.ltb_lt. split; [intros H; split; [discriminate | exact H] | intros [_ H]; exact H].
Qed.

Lemma waits_probe_events (page : Page) (sel : string) :
  waits (probe_events page sel) = [(sel, 600%N)].
Proof. unfold probe_events. destruct (settle_wait page sel); reflexivity. Qed.

Lemma waits_gather_prefix (page : Page) (sels : list string) :
  exists n, waits (gather_events page sels)
            = firstn n (map (fun s => (s, 600%N)) sels).
Proof.
  induction sels as [| s sels [n IH]]; [exists 0; reflexivity |].
  cbn [gather_events]. rewrite waits_app, waits_probe_events.
  destruct (probe_value page [] s).
  - exists (S n). cbn [map firstn app]. now rewrite IH.
  - exists 1. reflexivity.
Qed.

Lemma waits_gather_all (page : Page) (sels : list string) (text t : jstring) :
  gather_value page sels text = Ok t ->
  waits (gather_events page sels) = map (fun s => (s, 600%N)) sels.
Proof.
  revert text. induction sels as [| s sels IH]; intros text; [reflexivity |].
  cbn [gather_value gather_events]. rewrite waits_app, waits_probe_events.
  destruct (probe_value page text s) as [text' | e] eqn:E; [| discriminate].
  destruct (probe_value_returns page text [] s E) as [t' ->].
  intros G. cbn [map app]. now rewrite (IH text' G).
Qed.

(** When no heading that is found contributes, the loop hands back the
    text it started with. *)
Lemma gather_value_excluded (page : Page) (sels : list string) (text : jstring) :
  (forall sel el, In sel sels -> settle_wait page sel = Some el ->
     exists c, textContent el = Resolved c /\ contributes (trim (or_empty c)) = false) ->
  gather_value page sels text = Ok text.
Proof.
  induction sels as [| s sels IH]; intros H; [reflexivity |].
  cbn [gather_value]. unfold probe_value.
  destruct (settle_wait page s) as [el |] eqn:W.
  - destruct (H s el (or_introl eq_refl) W) as (c & -> & ->).
    apply IH. intros sel el' Hin. apply H. now right.
  - apply IH. intros sel el' Hin. apply H. now right.
Qed.

Lemma toLowerCase_nil {engine : JsEngine} : toLowerCase [] = [].
Proof. now rewrite toLowerCase_ascii. Qed.

(** C9. A heading that is found and read adds a space and its trimmed text
    to the aggregated text exactly when the trimmed text is non-empty and
    shorter than 300 code units, and adds nothing otherwise. The loop waits
    for the four selectors in their fixed order with a timeout of 600 each
    (all four when no reading throws, the first ones up to the failing
    reading otherwise). A page whose found headings all have a trimmed text
    of 300 code units or more is not detected: the check returns false and
    has only waited and read. *)
Theorem heading_contribution (page : Page) :
  (forall text sel w el c,
      waitForSelector page sel 600 = Resolved (Some el) ->
      textContent el = Resolved c ->
      fst (probe page text sel w)
      = Ok (if contributes (trim (or_empty c))
            then text ++ js " " ++ trim (or_empty c) else text))
  /\ (forall t, contributes t = true <-> t <> [] /\ List.length t < 300)
  /\ (forall text w,
         snd (probeHeadings page HEADING_SELECTORS text w)
         = record_all (gather_events page HEADING_SELECTORS) w
         /\ (exists n, waits (gather_events page HEADING_SELECTORS)
                       = firstn n (map (fun s => (s, 600%N)) HEADING_SELECTORS))
         /\ (forall t, fst (probeHeadings page HEADING_SELECTORS text w) = Ok t ->
                       waits (gather_events page HEADING_SELECTORS)
                       = map (fun s => (s, 600%N)) HEADING_SELECTORS))
  /\ (forall (engine : JsEngine) c w,
         already_blocked w = false ->
         (forall sel el, In sel HEADING_SELECTORS -> settle_wait page sel = Some el ->
            exists cnt, textContent el = Resolved cnt
                        /\ 300 <= List.length (trim (or_empty cnt))) ->
         detectSignInBlocked c page w
         = (Ok false, record_all (gather_events page HEADING_SELECTORS) w)
         /\ alerts (history (snd (detectSignInBlocked c page w))) = alerts (history w)).
Proof.
  split; [| split; [| split]].
  - intros text sel w el c W T. rewrite probe_eq. cbn [fst].
    unfold probe_value, settle_wait. now rewrite W, T.
  - exact contributes_iff.
  - intros text w. rewrite probeHeadings_eq. cbn [fst snd].
    split; [reflexivity |]. split; [apply waits_gather_prefix |].
    intros t G. eapply waits_gather_all; eauto.
  - intros engine c w B Hlong.
    assert (G : gather_value page HEADING_SELECTORS [] = Ok []).
    { apply gather_value_excluded. intros sel el Hin W.
      destruct (Hlong sel el Hin W) as (cnt & T & Hlen).
      exists cnt. split; [exact T |].
      destruct (contributes (trim (or_empty cnt))) eqn:C; [| reflexivity].
      apply contributes_iff in C. lia. }
    assert (E : detectSignInBlocked c page w
                = (Ok false, record_all (gather_events page HEADING_SELECTORS) w)).
    { apply (detect_no_match c page w B G).
      rewrite toLowerCase_nil. exact table_rejects_empty. }
    split; [exact E |].
    rewrite E. unfold snd. rewrite history_record_all, alerts_app.
    rewrite (proj1 (gather_events_quiet page HEADING_SELECTORS)). apply app_nil_r.
Qed.

(** The lockout wording followed by 272 letters (300 code units in all) is
    not detected. *)
Lemma heading_contribution_witness :
  fst (detectSignInBlocked cooperative (long_page 272) (fresh "a@x")) = Ok false.
Proof.
  pose proof (heading_contribution (long_page 272)) as (_ & _ & _ & H).
  destruct (H ascii_engine cooperative (fresh "a@x") eq_refl) as [E _].
  - intros sel el Hin W. cbn in Hin.
    destruct Hin as [<- | [<- | [<- | [<- | []]]]]; try discriminate W.
    injection W as <-. eexists. split; [reflexivity |].
    apply Nat.leb_le. vm_compute. reflexivity.
  - rewrite E. reflexivity.
Defined.

(* ------------------------------------------------------------------ *)
(** ** Errors while probing                                             *)
(* ------------------------------------------------------------------ *)

Lemma settle_wait_absent (page : Page) (sel s : string) (r : string) :
  waitForSelector page sel 600 = Rejected r ->
  settle_wait (absent sel page) s = settle_wait page s.
Proof.
  intros W. unfold settle_wait, absent; cbn [waitForSelector].
  destruct (String.eqb_spec s sel) as [-> |]; [now rewrite W | reflexivity].
Qed.

Lemma gather_ext (page page' : Page) (sels : list string) :
  (forall s, settle_wait page' s = settle_wait page s) ->
  (forall text, gather_value page' sels text = gather_value page sels text)
  /\ gather_events page' sels = gather_events page sels.
Proof.
  intros H.
  assert (Hv : forall text s, probe_value page' text s = probe_value page text s)
    by (intros; unfold probe_value; now rewrite H).
  assert (He : forall s, probe_events page' s = probe_events page s)
    by (intros; unfold probe_events; now rewrite H).
  induction sels as [| s sels [IHv IHe]]; [split; reflexivity |].
  split.
  - intros text. cbn [gather_value]. rewrite Hv.
    destruct (probe_value page text s); [apply IHv | reflexivity].
  - cbn [gather_events]. now rewrite Hv, He, IHe.
Qed.

Lemma gather_value_throws (page : Page) (sels : list string) (text : jstring)
  (sel : string) (el : ElementHandle) (r : string) :
  In sel sels ->
  settle_wait page sel = Some el ->
  textContent el = Rejected r ->
  exists e, gather_value page sels text = Throw e.
Proof.
  intros Hin W T. revert text.
  induction sels as [| s sels IH]; intros text; [destruct Hin |].
  cbn [gather_value].
  destruct (probe_value page text s) as [text' | e] eqn:E; [| eauto].
  destruct Hin as [-> | Hin]; [| now apply IH].
  unfold probe_value in E. rewrite W, T in E. discriminate.
Qed.

Section ProbingErrors.
Context {engine : JsEngine}.

Lemma detect_ext (c : Collaborators) (page page' : Page) (w : World) :
  (forall s, settle_wait page' s = settle_wait page s) ->
  detectSignInBlocked c page' w = detectSignInBlocked c page w.
Proof.
  intros H. destruct (gather_ext page page' HEADING_SELECTORS H) as [Hv He].
  unfold detectSignInBlocked, bind, get.
  destruct (already_blocked w); [reflexivity |].
  unfold try_catch, scan, bind.
  now rewrite !probeHeadings_eq, Hv, He.
Qed.

(** C4, as the code has it. A check always returns a boolean, whatever the
    page and the collaborators do. A rejected wait for a selector (missing
    selector, timeout, page gone) counts as that selector not being there
    and nothing more: the check ends as on the page without it. A rejected
    reading of the text of a found heading ends the scan: the check
    returns false, the bot is as it was and no alert was dispatched,
    whatever the other headings said. Of the two methods only
    [checkAccountLocked] can throw. *)
Theorem detect_never_raises (c : Collaborators) (page : Page) (w : World) :
  (exists b, fst (detectSignInBlocked c page w) = Ok b)
  /\ (forall sel r,
         waitForSelector page sel 600 = Rejected r ->
         detectSignInBlocked c (absent sel page) w = detectSignInBlocked c page w)
  /\ (forall sel el r,
         already_blocked w = false ->
         In sel HEADING_SELECTORS ->
         waitForSelector page sel 600 = Resolved (Some el) ->
         textContent el = Rejected r ->
         fst (detectSignInBlocked c page w) = Ok false
         /\ same_bot w (snd (detectSignInBlocked c page w))
         /\ alerts (history (snd (detectSignInBlocked c page w))) = alerts (history w))
  /\ (exists p v e, fst (checkAccountLocked p v) = Throw e).
Proof.
  split; [apply detect_returns_bool |].
  split; [| split].
  - intros sel r W. apply detect_ext. intros s. now apply settle_wait_absent with (r := r).
  - intros sel el r B Hin W T.
    destruct (gather_value_throws page HEADING_SELECTORS [] sel (el := el) (r := r))
      as [e G]; auto.
    { unfold settle_wait. now rewrite W. }
    rewrite (detect_probe_throws c page w B G). cbn [fst snd].
    split; [reflexivity |]. split; [apply same_bot_record_all |].
    rewrite history_record_all, alerts_app.
    rewrite (proj1 (gather_events_quiet page HEADING_SELECTORS)). apply app_nil_r.
  - exists locked_page, (fresh "a@x"), (JsError LOCKED_MESSAGE). reflexivity.
Qed.

End ProbingErrors.

Lemma detect_never_raises_witness :
  detectSignInBlocked cooperative (absent "div.text-title" blocked_page) (fresh "a@x")
  = detectSignInBlocked cooperative blocked_page (fresh "a@x")
  /\ fst (detectSignInBlocked cooperative racing_page (fresh "a@x")) = Ok false.
Proof.
  pose proof (detect_never_raises cooperative blocked_page (fresh "a@x")) as (_ & Hwait & _).
  pose proof (detect_never_raises cooperative racing_page (fresh "a@x")) as (_ & _ & Hread & _).
  split.
  - apply (Hwait "div.text-title" "Timeout exceeded"). reflexivity.
  - eapply (Hread "h1"); [reflexivity | | reflexivity | reflexivity].
    cbn. auto.
Defined.

(** C4 as stated fails for a reading error: the title region carries the
    lockout wording and the h1 is found but can no longer be read. Were the
    error a non-match of the h1 only, the check would end as on the page
    without the h1, with true; it returns false. *)
Lemma reading_error_hides_match :
  In "h1" HEADING_SELECTORS
  /\ probing_error racing_page "h1"
  /\ fst (detectSignInBlocked cooperative racing_page (fresh "a@x")) = Ok false
  /\ fst (detectSignInBlocked cooperative (absent "h1" racing_page) (fresh "a@x")) = Ok true
  /\ ~ (forall (engine : JsEngine) c page sel w,
           In sel HEADING_SELECTORS ->
           probing_error page sel ->
           fst (detectSignInBlocked c page w)
           = fst (detectSignInBlocked c (absent sel page) w)).
Proof.
  assert (Hin : In "h1" HEADING_SELECTORS) by (cbn; auto).
  assert (Herr : probing_error racing_page "h1").
  { right. eexists. eexists. split; reflexivity. }
  split; [exact Hin |]. split; [exact Herr |].
  split; [reflexivity |]. split; [reflexivity |].
  intros H.
  specialize (H ascii_engine cooperative racing_page "h1" (fresh "a@x") Hin Herr).
  discriminate H.
Qed.

(* ------------------------------------------------------------------ *)
(** ** The confirmed incident                                           *)
(* ------------------------------------------------------------------ *)

Lemma alerts_confirm_events (c : Collaborators) (w : World) (l : string) :
  alerts (confirm_events c w l) = [incident_of c w l].
Proof.
  unfold confirm_events.
  destruct (engageGlobalStandby c SIGN_IN_BLOCKED _); destruct (openDocsTab c _); reflexivity.
Qed.

Lemma engagements_confirm_events (c : Collaborators) (w : World) (l : string) :
  engagements (confirm_events c w l)
  = [(SIGN_IN_BLOCKED, or_default (currentAccountEmail w) "unknown")].
Proof.
  unfold confirm_events.
  destruct (engageGlobalStandby c SIGN_IN_BLOCKED _); destruct (openDocsTab c _); reflexivity.
Qed.

Lemma confirm_events_record_all (c : Collaborators) (evs : list event) (w : World) (l : string) :
  confirm_events c (record_all evs w) l = confirm_events c w l.
Proof.
  destruct (same_bot_record_all evs w) as (_ & _ & E & Mb & _).
  unfold confirm_events. now rewrite incident_of_record_all, E, Mb.
Qed.

Section Confirmed.
Context {engine : JsEngine}.

(** The bot and the history after a confirmed check. *)
Lemma detect_confirmed (c : Collaborators) (page : Page) (w : World)
  (text : jstring) (l : string) (d : delivery) :
  already_blocked w = false ->
  gather_value page HEADING_SELECTORS [] = Ok text ->
  first_match SIGN_IN_BLOCK_PATTERNS (toLowerCase text) = Some l ->
  sendIncidentAlert c (incident_of c w l) "warn" = Resolved d ->
  fst (detectSignInBlocked c page w) = Ok true
  /\ compromisedModeActive (snd (detectSignInBlocked c page w)) = true
  /\ compromisedReason (snd (detectSignInBlocked c page w)) = Some SIGN_IN_BLOCKED
  /\ history (snd (detectSignInBlocked c page w))
     = history w ++ gather_events page HEADING_SELECTORS ++ confirm_events c w l
  /\ globalStandby (snd (detectSignInBlocked c page w))
     = match engageGlobalStandby c SIGN_IN_BLOCKED
               (or_default (currentAccountEmail w) "unknown") with
       | Resolved _ => Some (SIGN_IN_BLOCKED, or_default (currentAccountEmail w) "unknown")
       | Rejected _ => globalStandby w
       end.
Proof.
  intros B G F A. rewrite (detect_match_resolved c page w B G F A). unfold fst, snd.
  pose proof (same_bot_record_all (gather_events page HEADING_SELECTORS) w)
    as (_ & _ & Em & _ & St).
  split; [reflexivity |]. split; [reflexivity |]. split; [reflexivity |]. split.
  - now rewrite history_confirm_world, history_record_all, confirm_events_record_all,
      app_assoc.
  - now rewrite globalStandby_confirm_world, Em, St.
Qed.


(** C10. Once a match is confirmed, a rejected engagement of the global
    standby and a rejected opening of the docs tab are each caught by
    their handler, which logs one line at error level: the check still
    returns true and the compromised flags stay set. The calls made after
    the probing are exactly those of [confirm_events]: the dispatch, the
    interval, the engagement (and its log line when rejected), the docs
    tab (and its log line when rejected). *)
Theorem failures_after_confirmation (c : Collaborators) (page : Page) (w : World)
  (text : jstring) (l : string) (d : delivery) :
  already_blocked w = false ->
  gather_value page HEADING_SELECTORS [] = Ok text ->
  first_match SIGN_IN_BLOCK_PATTERNS (toLowerCase text) = Some l ->
  sendIncidentAlert c (incident_of c w l) "warn" = Resolved d ->
  fst (detectSignInBlocked c page w) = Ok true
  /\ compromisedModeActive (snd (detectSignInBlocked c page w)) = true
  /\ compromisedReason (snd (detectSignInBlocked c page w)) = Some SIGN_IN_BLOCKED
  /\ history (snd (detectSignInBlocked c page w))
     = history w ++ gather_events page HEADING_SELECTORS ++ confirm_events c w l
  /\ (forall r,
         engageGlobalStandby c SIGN_IN_BLOCKED
           (or_default (currentAccountEmail w) "unknown") = Rejected r ->
         In (Log (isMobile w) "LOGIN-SECURITY" "Global standby engagement failed" "error")
            (history (snd (detectSignInBlocked c page w)))
         /\ globalStandby (snd (detectSignInBlocked c page w)) = globalStandby w)
  /\ (forall r,
         openDocsTab c (getDocsUrl c "we-cant-sign-you-in") = Rejected r ->
         In (Log (isMobile w) "LOGIN-SECURITY" "Failed to open docs tab" "error")
            (history (snd (detectSignInBlocked c page w)))).
Proof.
  intros B G F A.
  destruct (detect_confirmed c page w B G F A) as (R & Fa & Fr & H & St).
  assert (Hin : forall e, In e (confirm_events c w l) ->
                          In e (history (snd (detectSignInBlocked c page w)))).
  { intros e He. rewrite H. apply in_or_app. right. apply in_or_app. now right. }
  split; [exact R |]. split; [exact Fa |]. split; [exact Fr |]. split; [exact H |].
  split.
  - intros r E. rewrite St, E. split; [| reflexivity].
    apply Hin. unfold confirm_events. rewrite E.
    apply in_or_app. right. apply in_or_app. left. cbn. auto.
  - intros r E. apply Hin. unfold confirm_events. rewrite E.
    apply in_or_app. right. apply in_or_app. right. apply in_or_app. right. cbn. auto.
Qed.

End Confirmed.



(** Both the engagement and the docs tab are rejected. *)
Lemma failures_after_confirmation_witness :
  fst (detectSignInBlocked failing blocked_page (fresh "a@x")) = Ok true
  /\ already_blocked (snd (detectSignInBlocked failing blocked_page (fresh "a@x"))) = true
  /\ In (Log false "LOGIN-SECURITY" "Global standby engagement failed" "error")
        (history (snd (detectSignInBlocked failing blocked_page (fresh "a@x"))))
  /\ In (Log false "LOGIN-SECURITY" "Failed to open docs tab" "error")
        (history (snd (detectSignInBlocked failing blocked_page (fresh "a@x")))).
Proof.
  pose proof (failures_after_confirmation failing blocked_page (fresh "a@x")
                (text := js " We can't sign you in right now")
                (l := "cant-sign-in") (d := undelivered)
                eq_refl eq_refl eq_refl eq_refl) as (R & Fa & Fr & _ & Hs & Hd).
  split; [exact R |].
  split; [apply already_blocked_iff; split; [exact Fa | exact Fr] |].
  split.
  - apply (Hs "standby unavailable"). reflexivity.
  - apply (Hd "no browser context"). reflexivity.
Defined.

(* ------------------------------------------------------------------ *)
(** ** The fingerprint gate of createBrowser                            *)
(* ------------------------------------------------------------------ *)

Lemma autoInstall_ok (pf : Platform) (w : World) :
  exists evs, appends (autoInstall pf) (Ok tt) w evs /\ ~ In NewInjectedContext evs.
Proof.
  unfold appends, autoInstall, try_catch, log, bind, get, emit, modify, await, ret, throw.
  destruct (AUTO_INSTALL_BROWSERS pf).
  - destruct (execSync pf) as [[] | r].
    + eexists [_; _; _]. split; [reflexivity |]. cbn. intuition discriminate.
    + eexists [_; _; _]. split; [reflexivity |]. cbn. intuition discriminate.
  - exists []. split; [reflexivity | auto].
Qed.

Lemma launchBrowser_cases (pf : Platform) (cfg : Config) (w : World) :
  exists evs,
    appends (launchBrowser pf cfg)
            (match launch pf with
             | Resolved _ => Ok tt
             | Rejected r => Throw (Foreign r)
             end) w evs
    /\ ~ In NewInjectedContext evs.
Proof.
  unfold appends, launchBrowser, try_catch, log, bind, get, emit, modify, await, ret, throw.
  destruct (launch pf) as [[] | r].
  - eexists [_; _]. split; [reflexivity |]. cbn. intuition discriminate.
  - cbn [reason_of].
    destruct (test (lit "Executable doesn't exist") (js r)).
    + eexists [_; _; _]. split; [reflexivity |]. cbn. intuition discriminate.
    + eexists [_; _; _]. split; [reflexivity |]. cbn. intuition discriminate.
Qed.

Lemma obtainFingerprint_cases (pf : Platform) (email : string) (w : World) :
  exists evs,
    appends (obtainFingerprint pf email)
            (match loadSessionData pf email with
             | Rejected r => Throw (Foreign r)
             | Resolved sd =>
                 match fingerprint sd with
                 | Some fp => Ok (sd, fp)
                 | None =>
                     match updateFingerprintUserAgent pf with
                     | Resolved fp => Ok (sd, fp)
                     | Rejected r => Throw (Foreign r)
                     end
                 end
             end) w evs
    /\ ~ In NewInjectedContext evs.
Proof.
  unfold appends, obtainFingerprint, bind, emit, modify, await, ret, throw.
  destruct (loadSessionData pf email) as [sd | r].
  - destruct (fingerprint sd) as [fp |].
    + eexists [_]. split; [reflexivity |]. cbn. intuition discriminate.
    + destruct (updateFingerprintUserAgent pf) as [fp | r].
      * eexists [_; _]. split; [reflexivity |]. cbn. intuition discriminate.
      * eexists [_; _]. split; [reflexivity |]. cbn. intuition discriminate.
  - eexists [_]. split; [reflexivity |]. cbn. intuition discriminate.
Qed.

Lemma fingerprintGate_eq (pf : Platform) (cfg : Config) (email : string)
  (fp : Fingerprint) (w : World) :
  fingerprintGate pf cfg email fp w
  = (if negb (valid (validateFingerprintConsistency pf fp cfg)) && stops_on_critical cfg
     then Throw (fingerprint_failure email (validateFingerprintConsistency pf fp cfg))
     else Ok tt,
     record_all [LogFingerprintValidation email] w).
Proof.
  unfold fingerprintGate, bind, emit, modify, ret, throw.
  destruct (negb _ && _); reflexivity.
Qed.

Lemma openContext_cases (pf : Platform) (cfg : Config) (email : string)
  (sd : SessionData) (fp : Fingerprint) (w : World) :
  (exists evs,
      history (snd (openContext pf cfg email sd fp w))
      = history w ++ NewInjectedContext :: evs)
  /\ (forall m, fst (openContext pf cfg email sd fp w) <> Throw (JsError m))
  /\ (forall ctx, context_opens pf cfg email sd fp ctx ->
                  fst (openContext pf cfg email sd fp w) = Ok ctx).
Proof.
  unfold context_opens, openContext, try_catch, log, bind, get, emit, modify,
    await, ret, throw.
  destruct (newInjectedContext pf fp) as [ctx0 | r0]; cbn [fst snd];
    [| split; [exists []; reflexivity |];
       split; [discriminate | intros ctx (H & _); discriminate H]].
  destruct (setDefaultTimeout pf) as [[] | r1]; cbn [fst snd];
    [| split; [eexists; cbn; rewrite <- app_assoc; reflexivity |];
       split; [discriminate | intros ctx (_ & H & _); discriminate H]].
  destruct (addCookies pf (cookies sd)) as [[] | r3];
    destruct (onPage pf) as [[] | r2]; cbn [fst snd];
    try (split; [eexists; cbn; rewrite <- !app_assoc; reflexivity |];
         split; [discriminate | intros ctx (_ & _ & H & _); discriminate H]).
  - destruct (mobile (saveFingerprint_of cfg) || desktop (saveFingerprint_of cfg)).
    + destruct (saveFingerprintData pf email fp) as [[] | r4]; cbn [fst snd].
      * split; [eexists; cbn; rewrite <- !app_assoc; reflexivity |].
        split; [discriminate | intros ctx ([= ->] & _); reflexivity].
      * split; [eexists; cbn; rewrite <- !app_assoc; reflexivity |].
        split; [discriminate | intros ctx (_ & _ & _ & H); discriminate H].
    + cbn [fst snd]. split; [eexists; cbn; rewrite <- !app_assoc; reflexivity |].
      split; [discriminate | intros ctx ([= ->] & _); reflexivity].
  - destruct (mobile (saveFingerprint_of cfg) || desktop (saveFingerprint_of cfg)).
    + destruct (saveFingerprintData pf email fp) as [[] | r4]; cbn [fst snd].
      * split; [eexists; cbn; rewrite <- !app_assoc; reflexivity |].
        split; [discriminate | intros ctx ([= ->] & _); reflexivity].
      * split; [eexists; cbn; rewrite <- !app_assoc; reflexivity |].
        split; [discriminate | intros ctx (_ & _ & _ & H); discriminate H].
    + cbn [fst snd]. split; [eexists; cbn; rewrite <- !app_assoc; reflexivity |].
      split; [discriminate | intros ctx ([= ->] & _); reflexivity].
Qed.

(** Up to the gate: either a collaborator rejected and that rejection is
    what [createBrowser] throws, or the gate is reached with the
    fingerprint of [fingerprint_used]; no context has been asked for. *)
Lemma createBrowser_before_gate (pf : Platform) (cfg : Config) (email : string) (w : World) :
  exists evs,
    ~ In NewInjectedContext evs
    /\ match fingerprint_used pf email with
       | None =>
           exists r, createBrowser pf cfg email w = (Throw (Foreign r), record_all evs w)
       | Some (sd, fp) =>
           createBrowser pf cfg email w
           = bind (fingerprintGate pf cfg email fp)
                  (fun _ => openContext pf cfg email sd fp) (record_all evs w)
       end.
Proof.
  destruct (autoInstall_ok pf w) as (e1 & A1 & N1).
  destruct (launchBrowser_cases pf cfg (record_all e1 w)) as (e2 & A2 & N2).
  destruct (obtainFingerprint_cases pf email (record_all e2 (record_all e1 w)))
    as (e3 & A3 & N3).
  unfold appends in *.
  assert (E : createBrowser pf cfg email w
              = match launch pf with
                | Resolved _ =>
                    match obtainFingerprint pf email (record_all e2 (record_all e1 w)) with
                    | (Ok sf, w') =>
                        bind (fingerprintGate pf cfg email (snd sf))
                             (fun _ => openContext pf cfg email (fst sf) (snd sf)) w'
                    | (Throw e, w') => (Throw e, w')
                    end
                | Rejected r => (Throw (Foreign r), record_all e2 (record_all e1 w))
                end).
  { unfold createBrowser. unfold bind at 1. rewrite A1. unfold bind at 1. rewrite A2.
    destruct (launch pf); reflexivity. }
  rewrite E. clear E. unfold fingerprint_used.
  destruct (launch pf) as [[] | r].
  - rewrite A3, <- !record_all_app.
    exists (e1 ++ e2 ++ e3). split.
    { intros H. apply in_app_or in H as [H | H]; [auto |].
      apply in_app_or in H as [H | H]; auto. }
    destruct (loadSessionData pf email) as [sd | r]; [| eauto].
    destruct (fingerprint sd) as [fp |]; [reflexivity |].
    destruct (updateFingerprintUserAgent pf) as [fp | r]; [reflexivity | eauto].
  - rewrite <- record_all_app. exists (e1 ++ e2). split; [| eauto].
    intros H. apply in_app_or in H as [H | H]; auto.
Qed.

(** C7. [createBrowser] throws the fingerprint error (an Error built by
    the gate, with the account and the critical issues in its message)
    exactly when the run reaches the validation, the result is not valid
    and riskManagement.stopOnCritical is set; no context has then been
    asked for. When the flag is not set (or the result is valid) the run
    goes on past the gate whatever the critical issues: the context is
    asked for with that fingerprint, and is handed back when the calls
    after the gate resolve. Every other failure of [createBrowser] is the
    rejection of a collaborator, passed on as it came. *)
Theorem fingerprint_gate (pf : Platform) (cfg : Config) (email : string) (w : World) :
  (forall m,
      fst (createBrowser pf cfg email w) = Throw (JsError m)
      <-> exists r,
            validation_reached pf cfg email = Some r
            /\ valid r = false
            /\ stops_on_critical cfg = true
            /\ JsError m = fingerprint_failure email r)
  /\ (forall r,
         validation_reached pf cfg email = Some r ->
         valid r = false ->
         stops_on_critical cfg = true ->
         fst (createBrowser pf cfg email w) = Throw (fingerprint_failure email r)
         /\ exists evs,
              history (snd (createBrowser pf cfg email w)) = history w ++ evs
              /\ ~ In NewInjectedContext evs)
  /\ (forall sd fp,
         fingerprint_used pf email = Some (sd, fp) ->
         stops_on_critical cfg = false
         \/ valid (validateFingerprintConsistency pf fp cfg) = true ->
         (exists evs evs',
             history (snd (createBrowser pf cfg email w))
             = history w ++ evs ++ NewInjectedContext :: evs')
         /\ forall ctx, context_opens pf cfg email sd fp ctx ->
                        fst (createBrowser pf cfg email w) = Ok ctx).
Proof.
  destruct (createBrowser_before_gate pf cfg email w) as (evs & Nctx & H).
  unfold validation_reached.
  destruct (fingerprint_used pf email) as [[sd fp] |] eqn:U.
  - unfold bind in H. rewrite fingerprintGate_eq in H.
    rewrite <- record_all_app in H.
    set (r := validateFingerprintConsistency pf fp cfg) in *.
    destruct (openContext_cases pf cfg email sd fp
                (record_all (evs ++ [LogFingerprintValidation email]) w))
      as ((evs' & Hh) & Hnot & Hopen).
    destruct (valid r) eqn:V; destruct (stops_on_critical cfg) eqn:S;
      cbn [negb andb] in H; rewrite H.
    + split; [| split].
      * intros m. split; [intros E; now apply Hnot in E |].
        intros (r' & [= <-] & V' & _). congruence.
      * intros r' [= <-] V'. congruence.
      * intros sd' fp' [= <- <-] _. split; [| exact Hopen].
        exists (evs ++ [LogFingerprintValidation email]), evs'.
        now rewrite Hh, history_record_all, <- app_assoc.
    + split; [| split].
      * intros m. split; [intros E; now apply Hnot in E |].
        intros (r' & _ & _ & S' & _). discriminate.
      * intros r' _ _ S'. discriminate.
      * intros sd' fp' [= <- <-] _. split; [| exact Hopen].
        exists (evs ++ [LogFingerprintValidation email]), evs'.
        now rewrite Hh, history_record_all, <- app_assoc.
    + split; [| split].
      * intros m. cbn [fst]. split.
        -- intros [= <-]. exists r. auto.
        -- intros (r' & [= <-] & _ & _ & E). now rewrite E.
      * intros r' [= <-] _ _. cbn [fst snd]. split; [reflexivity |].
        exists (evs ++ [LogFingerprintValidation email]).
        rewrite history_record_all. split; [reflexivity |].
        intros Hin. apply in_app_or in Hin as [Hin | [Hin | []]]; [auto | discriminate].
      * intros sd' fp' [= <- <-] [S' | V']; [discriminate S' |].
        fold r in V'. congruence.
    + split; [| split].
      * intros m. split; [intros E; now apply Hnot in E |].
        intros (r' & _ & _ & S' & _). discriminate.
      * intros r' _ _ S'. discriminate.
      * intros sd' fp' [= <- <-] _. split; [| exact Hopen].
        exists (evs ++ [LogFingerprintValidation email]), evs'.
        now rewrite Hh, history_record_all, <- app_assoc.
  - destruct H as (r0 & H). rewrite H. cbn [fst].
    split; [| split].
    + intros m. split; [discriminate | intros (r' & [=] & _)].
    + intros r' [=].
    + intros sd fp [=].
Qed.

(** stopOnCritical set, a critical issue: the fingerprint error. *)
Lemma fingerprint_gate_witness :
  fst (createBrowser (platform mismatch) (config (Some true)) "a@x" (fresh "a@x"))
  = Throw (JsError "Fingerprint validation failed for a@x: mobile/viewport mismatch")
  /\ fst (createBrowser (platform mismatch) (config None) "a@x" (fresh "a@x"))
     = Ok {| injected := {| userAgent := "Mozilla/5.0" |} |}.
Proof.
  pose proof (fingerprint_gate (platform mismatch) (config (Some true)) "a@x" (fresh "a@x"))
    as (_ & Hstop & _).
  pose proof (fingerprint_gate (platform mismatch) (config None) "a@x" (fresh "a@x"))
    as (_ & _ & Hgo).
  split.
  - apply (Hstop mismatch); reflexivity.
  - eapply Hgo; [reflexivity | left; reflexivity |].
    repeat split.
Defined.

(* ================================================================== *)
(** * Further properties of the detector                                *)
(* ================================================================== *)

(** ** Matching *)

Lemma canonicalize_idempotent (c : N) : canonicalize (canonicalize c) = canonicalize c.
Proof.
  unfold canonicalize.
  destruct ((97 <=? c) && (c <=? 122))%N eqn:E; [| now rewrite E].
  apply andb_true_iff in E as [E1 E2]. apply N.leb_le in E1, E2.
  destruct ((97 <=? c - 32) && (c - 32 <=? 122))%N eqn:E'; [| reflexivity].
  apply andb_true_iff in E' as [E3 _]. apply N.leb_le in E3. lia.
Qed.

Lemma ci_eq_canonicalize (p c : N) : ci_eq p (canonicalize c) = ci_eq p c.
Proof. unfold ci_eq. now rewrite canonicalize_idempotent. Qed.

Lemma match_here_canonicalize (re : regex) (s : jstring) :
  match_here re (map canonicalize s) = match_here re s.
Proof.
  revert s. induction re as [| [p | cs] re IH]; intros [| c s]; cbn [match_here map];
    try reflexivity.
  - now rewrite ci_eq_canonicalize, IH.
  - change (canonicalize c :: map canonicalize s) with (map canonicalize (c :: s)).
    rewrite (IH s), (IH (c :: s)). f_equal. f_equal.
    induction cs as [| p cs IHcs]; cbn [existsb]; [reflexivity |].
    now rewrite ci_eq_canonicalize, IHcs.
Qed.

Lemma test_canonicalize (re : regex) (s : jstring) :
  test re (map canonicalize s) = test re s.
Proof.
  induction s as [| c s IH].
  - cbn [map test]. reflexivity.
  - change (map canonicalize (c :: s)) with (canonicalize c :: map canonicalize s).
    cbn [test]. rewrite IH. f_equal. apply (match_here_canonicalize re (c :: s)).
Qed.

Lemma first_match_canonicalize (ps : list pattern) (s : jstring) :
  first_match ps (map canonicalize s) = first_match ps s.
Proof.
  induction ps as [| p ps IH]; cbn [first_match]; [reflexivity |].
  now rewrite test_canonicalize, IH.
Qed.

Lemma canonicalize_ascii_lower (c : N) : canonicalize (ascii_lower c) = canonicalize c.
Proof.
  unfold canonicalize, ascii_lower.
  destruct ((65 <=? c) && (c <=? 90))%N eqn:E.
  - apply andb_true_iff in E as [E1 E2]. apply N.leb_le in E1, E2.
    replace ((97 <=? c + 32) && (c + 32 <=? 122))%N with true
      by (symmetry; apply andb_true_iff; split; apply N.leb_le; lia).
    replace ((97 <=? c) && (c <=? 122))%N with false
      by (symmetry; apply andb_false_iff; left; apply N.leb_gt; lia).
    lia.
  - reflexivity.
Qed.

(** X1. The classification does not see the case of ASCII letters: two
    texts with the same canonical (upper-cased) units get the same label,
    and on an ASCII text the lower-casing of line 35 changes nothing. *)
Theorem classification_ignores_case (s s' : jstring) :
  map canonicalize s = map canonicalize s' ->
  first_match SIGN_IN_BLOCK_PATTERNS s = first_match SIGN_IN_BLOCK_PATTERNS s'
  /\ forall (engine : JsEngine),
       forallb is_ascii s = true ->
       first_match SIGN_IN_BLOCK_PATTERNS (toLowerCase s)
       = first_match SIGN_IN_BLOCK_PATTERNS s'.
Proof.
  intros H.
  assert (E : first_match SIGN_IN_BLOCK_PATTERNS s = first_match SIGN_IN_BLOCK_PATTERNS s').
  { rewrite <- (first_match_canonicalize _ s), <- (first_match_canonicalize _ s').
    now rewrite H. }
  split; [exact E |].
  intros engine A. rewrite (toLowerCase_ascii s A), <- E.
  rewrite <- (first_match_canonicalize _ (map ascii_lower s)), map_map.
  rewrite (map_ext _ canonicalize canonicalize_ascii_lower).
  apply first_match_canonicalize.
Qed.

Lemma classification_ignores_case_witness :
  first_match SIGN_IN_BLOCK_PATTERNS (js "YOUR ACCOUNT HAS BEEN LOCKED")
  = first_match SIGN_IN_BLOCK_PATTERNS (js "Your account has been locked").
Proof.
  apply (classification_ignores_case (js "YOUR ACCOUNT HAS BEEN LOCKED")
           (js "Your account has been locked")).
  reflexivity.
Defined.

Lemma match_here_extends (re : regex) (m post : jstring) :
  match_here re m = true -> match_here re (m ++ post) = true.
Proof.
  revert m. induction re as [| [p | cs] re IH]; intros m H; cbn [match_here] in *.
  - reflexivity.
  - destruct m as [| c m]; [discriminate |]. cbn [app].
    apply andb_true_iff in H as [H1 H2]. now rewrite H1, (IH m H2).
  - destruct m as [| c m]; cbn [app].
    + specialize (IH [] H). cbn [app] in IH.
      destruct post as [| c post]; [exact H |]. rewrite IH. apply orb_true_r.
    + apply orb_true_iff in H as [H | H].
      * apply andb_true_iff in H as [H1 H2]. now rewrite H1, (IH m H2).
      * specialize (IH (c :: m) H). cbn [app] in IH. rewrite IH. apply orb_true_r.
Qed.

Lemma test_of_match (re : regex) (s : jstring) :
  match_here re s = true -> test re s = true.
Proof. intros H. destruct s; cbn [test]; now rewrite H. Qed.

Lemma test_after (re : regex) (pre s : jstring) :
  test re s = true -> test re (pre ++ s) = true.
Proof.
  intros H. induction pre as [| c pre IH]; [exact H |].
  cbn [app test]. rewrite IH. apply orb_true_r.
Qed.

Lemma test_inside (re : regex) (pre m post : jstring) :
  match_here re m = true -> test re (pre ++ m ++ post) = true.
Proof. intros H. apply test_after, test_of_match, match_here_extends, H. Qed.

(** X3. The lockout phrase is recognised wherever it stands in the
    aggregated text, with a straight apostrophe, a typographic one, a
    backtick or none at all, and being the first rule it always gives the
    label 'cant-sign-in'. *)
Theorem cant_sign_in_anywhere (pre post q : jstring) :
  In q [ []; [39%N]; [rsquo]; [96%N] ] ->
  first_match SIGN_IN_BLOCK_PATTERNS
    (pre ++ (js "we can" ++ q ++ js "t sign you in") ++ post)
  = Some "cant-sign-in".
Proof.
  intros Hq.
  assert (T : test (lit "we can" ++ [OptClass [39%N; rsquo; 96%N]] ++ lit "t sign you in")
                   (pre ++ (js "we can" ++ q ++ js "t sign you in") ++ post) = true).
  { apply test_inside.
    cbn in Hq. destruct Hq as [<- | [<- | [<- | [<- | []]]]]; reflexivity. }
  unfold SIGN_IN_BLOCK_PATTERNS. cbn [first_match re label]. now rewrite T.
Qed.

Lemma cant_sign_in_anywhere_witness :
  first_match SIGN_IN_BLOCK_PATTERNS
    (js " sorry, " ++ (js "we can" ++ [rsquo] ++ js "t sign you in") ++ js " right now")
  = Some "cant-sign-in".
Proof.
  apply (@cant_sign_in_anywhere (js " sorry, ") (js " right now") [rsquo]).
  cbn. auto.
Defined.

Lemma match_here_split (a b : regex) (s : jstring) :
  match_here (a ++ b) s = true ->
  exists pre s', s = pre ++ s' /\ match_here b s' = true.
Proof.
  revert s. induction a as [| [p | cs] a IH]; intros s H; cbn [app match_here] in H.
  - exists [], s. auto.
  - destruct s as [| c s]; [discriminate |].
    apply andb_true_iff in H as [_ H].
    destruct (IH s H) as (pre & s' & -> & Hb). exists (c :: pre), s'. auto.
  - destruct s as [| c s]; [now apply IH |].
    apply orb_true_iff in H as [H | H].
    + apply andb_true_iff in H as [_ H].
      destruct (IH s H) as (pre & s' & -> & Hb). exists (c :: pre), s'. auto.
    + now apply IH.
Qed.

Lemma test_tail (a b : regex) (s : jstring) :
  test (a ++ b) s = true -> test b s = true.
Proof.
  induction s as [| c s IH]; cbn [test]; intros H.
  - rewrite orb_false_r in H.
    destruct (match_here_split a b [] H) as (pre & s' & E & Hb).
    symmetry in E. apply app_eq_nil in E as [_ ->]. now rewrite Hb.
  - apply orb_true_iff in H as [H | H].
    + destruct (match_here_split a b (c :: s) H) as (pre & s' & E & Hb).
      change (test b (c :: s) = true). rewrite E. apply test_after, test_of_match, Hb.
    + rewrite (IH H). apply orb_true_r.
Qed.

(** X2. The third rule of the table can never decide: its pattern ends
    with the whole pattern of the second rule, so every text it matches is
    already labelled 'too-many-incorrect' (or 'cant-sign-in'). The label
    'too-many-incorrect-variant' is never produced. *)
Theorem variant_rule_is_shadowed (lower : jstring) :
  first_match SIGN_IN_BLOCK_PATTERNS lower <> Some "too-many-incorrect-variant"
  /\ (test (lit "used an incorrect account or password too many times") lower = true ->
      first_match SIGN_IN_BLOCK_PATTERNS lower = Some "cant-sign-in"
      \/ first_match SIGN_IN_BLOCK_PATTERNS lower = Some "too-many-incorrect").
Proof.
  assert (Sh : test (lit "used an incorrect account or password too many times") lower = true ->
               test (lit "incorrect account or password too many times") lower = true).
  { change (lit "used an incorrect account or password too many times")
      with (lit "used an " ++ lit "incorrect account or password too many times").
    apply test_tail. }
  unfold SIGN_IN_BLOCK_PATTERNS. cbn [first_match re label].
  destruct (test (lit "we can" ++ _) lower).
  - split; [discriminate | auto].
  - destruct (test (lit "incorrect account or password too many times") lower).
    + split; [discriminate | auto].
    + split.
      * destruct (test (lit "used an incorrect account or password too many times") lower);
          [now specialize (Sh eq_refl) |].
        destruct (test (lit "sign-in has been blocked") lower); [discriminate |].
        destruct (test (lit "your account has been locked") lower); discriminate.
      * intros H. now specialize (Sh H).
Qed.

Lemma variant_rule_is_shadowed_witness :
  first_match SIGN_IN_BLOCK_PATTERNS
    (js "you've used an incorrect account or password too many times")
  = Some "cant-sign-in"
  \/ first_match SIGN_IN_BLOCK_PATTERNS
       (js "you've used an incorrect account or password too many times")
     = Some "too-many-incorrect".
Proof.
  apply (variant_rule_is_shadowed
           (js "you've used an incorrect account or password too many times")).
  reflexivity.
Defined.

(** ** Headings *)

Lemma trimStart_whitespace (s : jstring) :
  forallb is_js_whitespace s = true -> trimStart s = [].
Proof.
  induction s as [| c s IH]; cbn [forallb trimStart]; [reflexivity |].
  intros H. apply andb_true_iff in H as [-> H]. now apply IH.
Qed.

Lemma trim_whitespace (s : jstring) :
  forallb is_js_whitespace s = true -> trim s = [].
Proof. intros H. unfold trim. now rewrite (trimStart_whitespace s H). Qed.

(** X4. A heading that is found but whose text is null, empty or made of
    white space only leaves the aggregated text as it was. *)
Theorem blank_heading_adds_nothing (page : Page) (text : jstring) (sel : string)
  (w : World) (el : ElementHandle) (c : option jstring) :
  waitForSelector page sel 600 = Resolved (Some el) ->
  textContent el = Resolved c ->
  forallb is_js_whitespace (or_empty c) = true ->
  fst (probe page text sel w) = Ok text
  /\ contribution page sel = [].
Proof.
  intros W T B.
  rewrite probe_eq. cbn [fst]. unfold probe_value, contribution, settle_wait.
  rewrite W, T, (trim_whitespace _ B). split; reflexivity.
Qed.

Lemma blank_heading_adds_nothing_witness :
  fst (probe {| waitForSelector := fun _ _ => heading "   " |}
             (js "so far") "h1" (fresh "a@x")) = Ok (js "so far").
Proof.
  eapply (@blank_heading_adds_nothing
            {| waitForSelector := fun _ _ => heading "   " |}
            (js "so far") "h1" (fresh "a@x")); reflexivity.
Defined.

Lemma contribution_length (page : Page) (sel : string) :
  List.length (contribution page sel) <= 300.
Proof.
  unfold contribution.
  destruct (settle_wait page sel) as [el |]; [| cbn; lia].
  destruct (textContent el) as [c | r]; [| cbn; lia].
  destruct (contributes (trim (or_empty c))) eqn:C; [| cbn; lia].
  apply contributes_iff in C as [_ C]. rewrite length_app. cbn. lia.
Qed.

Lemma probe_value_contribution (page : Page) (text : jstring) (sel : string) (t : jstring) :
  probe_value page text sel = Ok t -> t = text ++ contribution page sel.
Proof.
  unfold probe_value, contribution.
  destruct (settle_wait page sel) as [el |]; [| intros [= <-]; now rewrite app_nil_r].
  destruct (textContent el) as [c | r]; [| discriminate].
  destruct (contributes (trim (or_empty c))); intros [= <-];
    [reflexivity | now rewrite app_nil_r].
Qed.

Lemma gather_value_contributions (page : Page) (sels : list string) (text t : jstring) :
  gather_value page sels text = Ok t ->
  t = text ++ flat_map (contribution page) sels.
Proof.
  revert text. induction sels as [| sel sels IH]; intros text; cbn [gather_value flat_map].
  - intros [= <-]. now rewrite app_nil_r.
  - destruct (probe_value page text sel) as [text' | e] eqn:E; [| discriminate].
    intros G. rewrite (IH _ G), (probe_value_contribution page text sel E).
    now rewrite app_assoc.
Qed.

Lemma flat_map_length_bound (page : Page) (sels : list string) :
  List.length (flat_map (contribution page) sels) <= 300 * List.length sels.
Proof.
  induction sels as [| sel sels IH]; cbn [flat_map List.length]; [lia |].
  rewrite length_app. pose proof (contribution_length page sel). lia.
Qed.

(** X11. When no reading throws, the text the loop hands to the
    classification is the starting text followed, in selector order, by
    what each heading contributes: the regions are joined by single
    spaces, so a wording split over two regions is matched as one. *)
Theorem aggregated_text_is_concatenation (page : Page) (sels : list string)
  (text t : jstring) (w : World) :
  fst (probeHeadings page sels text w) = Ok t ->
  t = text ++ flat_map (contribution page) sels.
Proof. rewrite probeHeadings_eq. cbn [fst]. apply gather_value_contributions. Qed.

Lemma aggregated_text_is_concatenation_witness :
  js " Sorry, we can't sign you in right now"
  = [] ++ flat_map (contribution split_page) HEADING_SELECTORS
  /\ fst (detectSignInBlocked cooperative split_page (fresh "a@x")) = Ok true.
Proof.
  split; [| reflexivity].
  apply (@aggregated_text_is_concatenation split_page HEADING_SELECTORS []
           (js " Sorry, we can't sign you in right now") (fresh "a@x")).
  reflexivity.
Defined.

(** X5. The aggregated text of a check has at most 1200 code units: each
    of the four headings adds at most a space and 299 units. *)
Theorem aggregated_text_bounded (page : Page) (t : jstring) (w : World) :
  fst (probeHeadings page HEADING_SELECTORS [] w) = Ok t ->
  List.length t <= 1200.
Proof.
  rewrite probeHeadings_eq. cbn [fst]. intros G.
  rewrite (gather_value_contributions page HEADING_SELECTORS [] G). cbn [app].
  pose proof (flat_map_length_bound page HEADING_SELECTORS) as H.
  change (List.length HEADING_SELECTORS) with 4 in H. lia.
Qed.

Lemma aggregated_text_bounded_witness :
  List.length (js " your account has been locked" ++ repeat 97%N 271) <= 1200.
Proof.
  apply (@aggregated_text_bounded (long_page 271)
           (js " your account has been locked" ++ repeat 97%N 271) (fresh "a@x")).
  vm_compute. reflexivity.
Defined.

(** ** What a check does to the bot *)

Lemma or_default_nonempty (s : option string) (fallback : string) :
  fallback <> EmptyString -> or_default s fallback <> EmptyString.
Proof.
  intros F. unfold or_default. destruct s as [e |]; [| exact F].
  destruct (String.eqb_spec e EmptyString); [exact F | assumption].
Qed.

Section BotEffects.
Context {engine : JsEngine}.

(** X6. A check never changes the account the bot works on nor its
    mobile flag, never clears the compromised flag and never releases the
    global standby. A check that returns true leaves the compromised flag
    set with the reason 'sign-in-blocked', whatever the reason was
    before. *)
Theorem detect_bot_effect (c : Collaborators) (page : Page) (w : World) :
  currentAccountEmail (snd (detectSignInBlocked c page w)) = currentAccountEmail w
  /\ isMobile (snd (detectSignInBlocked c page w)) = isMobile w
  /\ (compromisedModeActive w = true ->
      compromisedModeActive (snd (detectSignInBlocked c page w)) = true)
  /\ (globalStandby w <> None ->
      globalStandby (snd (detectSignInBlocked c page w)) <> None)
  /\ (fst (detectSignInBlocked c page w) = Ok true ->
      compromisedModeActive (snd (detectSignInBlocked c page w)) = true
      /\ compromisedReason (snd (detectSignInBlocked c page w)) = Some SIGN_IN_BLOCKED).
Proof.
  pose proof (same_bot_record_all (gather_events page HEADING_SELECTORS) w) as Hg.
  assert (unchanged : forall w',
             same_bot w w' ->
             currentAccountEmail w' = currentAccountEmail w
             /\ isMobile w' = isMobile w
             /\ (compromisedModeActive w = true -> compromisedModeActive w' = true)
             /\ (globalStandby w <> None -> globalStandby w' <> None)
             /\ (Ok false = Ok true :> result bool ->
                 compromisedModeActive w' = true
                 /\ compromisedReason w' = Some SIGN_IN_BLOCKED)).
  { intros w' (S1 & S2 & S3 & S4 & S5).
    split; [exact S3 |]. split; [exact S4 |].
    split; [congruence |]. split; [congruence |]. discriminate. }
  destruct (detect_ending c page w) as [B | e B G | text B G F | text l r B G F A | text l d B G F A];
    unfold fst, snd.
  - apply already_blocked_iff in B.
    split; [reflexivity |]. split; [reflexivity |]. split; [auto |]. split; [auto |].
    intros _; exact B.
  - apply unchanged. exact Hg.
  - apply unchanged. exact Hg.
  - apply unchanged. eapply same_bot_trans; [exact Hg | repeat split].
  - destruct Hg as (A1 & A2 & A3 & A4 & A5).
    destruct (flags_confirm_world c (record_all (gather_events page HEADING_SELECTORS) w) l)
      as (F1 & F2 & F3 & F4).
    split; [congruence |]. split; [congruence |]. split; [auto |].
    split; [| auto].
    rewrite globalStandby_confirm_world.
    destruct (engageGlobalStandby c SIGN_IN_BLOCKED _); [discriminate | congruence].
Qed.

(** X7. A confirmed check dispatches one incident and asks for one standby
    engagement, both for the same account: the bot's current account, or
    'unknown' when that is undefined or empty; it is never the empty
    string. The incident names the matched label and the docs page. *)
Theorem incident_account (c : Collaborators) (page : Page) (w w' : World) :
  already_blocked w = false ->
  detectSignInBlocked c page w = (Ok true, w') ->
  exists i,
    alerts (history w') = alerts (history w) ++ [i]
    /\ engagements (history w') = engagements (history w) ++ [(SIGN_IN_BLOCKED, account i)]
    /\ account i <> EmptyString
    /\ account i = or_default (currentAccountEmail w) "unknown"
    /\ (forall e, currentAccountEmail w = Some e -> e <> EmptyString -> account i = e)
    /\ (currentAccountEmail w = None \/ currentAccountEmail w = Some EmptyString ->
        account i = "unknown")
    /\ kind i = "We can't sign you in (blocked)"
    /\ docsUrl i = getDocsUrl c "we-cant-sign-you-in"
    /\ exists l, In l (map label SIGN_IN_BLOCK_PATTERNS)
                 /\ details i = [ ("Pattern: " ++ l)%string ].
Proof.
  intros B E. revert E.
  destruct (detect_ending c page w) as [B' | | | | text l d _ G F A];
    intros E; try discriminate E; [congruence |].
  apply (f_equal snd) in E. unfold snd in E. subst w'.
  pose proof (gather_events_quiet page HEADING_SELECTORS) as [Qa Qe].
  exists (incident_of c w l).
  rewrite history_confirm_world, history_record_all, confirm_events_record_all.
  rewrite !alerts_app, !engagements_app, Qa, Qe, !app_nil_r.
  rewrite alerts_confirm_events, engagements_confirm_events.
  split; [reflexivity |]. split; [reflexivity |].
  split; [apply or_default_nonempty; discriminate |].
  split; [reflexivity |]. split.
  { intros e He Hne. cbn [incident_of account]. rewrite He. unfold or_default.
    destruct (String.eqb_spec e EmptyString); [contradiction | reflexivity]. }
  split.
  { intros [He | He]; cbn [incident_of account]; rewrite He; reflexivity. }
  split; [reflexivity |]. split; [reflexivity |].
  exists l. split; [| reflexivity].
  destruct (first_match_sound _ _ F) as (i & p & Hn & <- & _).
  apply in_map. eapply nth_error_In; eauto.
Qed.

(** X10. The bot is marked only after the dispatch has come back. When
    [sendIncidentAlert] rejects on a matching page, the check returns
    false, no bot field has changed and no standby engagement was asked
    for; the early return is not armed, so the next check scans the page
    again. *)
Theorem rejected_dispatch_loses_detection (c : Collaborators) (page : Page) (w : World)
  (text : jstring) (l : string) (r : string) :
  already_blocked w = false ->
  fst (probeHeadings page HEADING_SELECTORS [] w) = Ok text ->
  first_match SIGN_IN_BLOCK_PATTERNS (toLowerCase text) = Some l ->
  sendIncidentAlert c (incident_of c w l) "warn" = Rejected r ->
  fst (detectSignInBlocked c page w) = Ok false
  /\ same_bot w (snd (detectSignInBlocked c page w))
  /\ already_blocked (snd (detectSignInBlocked c page w)) = false
  /\ alerts (history (snd (detectSignInBlocked c page w)))
     = alerts (history w) ++ [incident_of c w l]
  /\ engagements (history (snd (detectSignInBlocked c page w)))
     = engagements (history w).
Proof.
  intros B G F A. rewrite probeHeadings_eq in G. cbn [fst] in G.
  rewrite (detect_match_rejected c page w B G F A). unfold fst, snd.
  pose proof (gather_events_quiet page HEADING_SELECTORS) as [Qa Qe].
  pose proof (same_bot_record_all (gather_events page HEADING_SELECTORS) w) as Hg.
  assert (Hs : same_bot w (record (SendIncidentAlert (incident_of c w l) "warn")
                             (record_all (gather_events page HEADING_SELECTORS) w))).
  { eapply same_bot_trans; [exact Hg | repeat split]. }
  split; [reflexivity |]. split; [exact Hs |]. split.
  { destruct Hs as (S1 & S2 & _). unfold already_blocked in *. now rewrite S1, S2. }
  change (history (record (SendIncidentAlert (incident_of c w l) "warn")
                          (record_all (gather_events page HEADING_SELECTORS) w)))
    with (history (record_all (gather_events page HEADING_SELECTORS) w)
          ++ [SendIncidentAlert (incident_of c w l) "warn"]).
  rewrite history_record_all, !alerts_app, !engagements_app, Qa, Qe.
  cbn [alerts engagements]. rewrite !app_nil_r. auto.
Qed.

End BotEffects.

Lemma incident_account_witness :
  exists i,
    alerts (history (snd (detectSignInBlocked cooperative blocked_page other_reason))) = [i]
    /\ account i = "unknown".
Proof.
  assert (E : detectSignInBlocked cooperative blocked_page other_reason
              = (Ok true, snd (detectSignInBlocked cooperative blocked_page other_reason)))
    by reflexivity.
  destruct (@incident_account ascii_engine cooperative blocked_page other_reason
              (snd (detectSignInBlocked cooperative blocked_page other_reason))
              eq_refl E) as (i & Ha & _ & _ & _ & _ & Hu & _).
  exists i. split; [exact Ha | apply Hu; left; reflexivity].
Defined.

Lemma rejected_dispatch_loses_detection_witness :
  fst (detectSignInBlocked unreachable_dispatch blocked_page (fresh "a@x")) = Ok false
  /\ already_blocked
       (snd (detectSignInBlocked unreachable_dispatch blocked_page (fresh "a@x"))) = false.
Proof.
  destruct (@rejected_dispatch_loses_detection ascii_engine unreachable_dispatch
              blocked_page (fresh "a@x")
              (js " We can't sign you in right now") "cant-sign-in" "webhook unreachable"
              eq_refl eq_refl eq_refl eq_refl) as (R & _ & B & _).
  split; [exact R | exact B].
Defined.

Lemma detect_bot_effect_witness :
  compromisedReason (snd (detectSignInBlocked cooperative blocked_page other_reason))
  = Some SIGN_IN_BLOCKED.
Proof.
  apply (@detect_bot_effect ascii_engine cooperative blocked_page other_reason).
  reflexivity.
Defined.

(* ================================================================== *)
(** * Further properties of createBrowser                               *)
(* ================================================================== *)

Lemma isMobile_record_all (evs : list event) (w : World) :
  isMobile (record_all evs w) = isMobile w.
Proof. now destruct (same_bot_record_all evs w) as (_ & _ & _ & H & _). Qed.

Lemma autoInstall_eq (pf : Platform) (w : World) :
  autoInstall pf w = (Ok tt, record_all (autoInstall_events pf (isMobile w)) w).
Proof.
  unfold autoInstall, autoInstall_events, try_catch, log, bind, get, emit, modify,
    await, ret, throw.
  destruct (AUTO_INSTALL_BROWSERS pf); [| reflexivity].
  destruct (execSync pf) as [[] | r]; reflexivity.
Qed.

Lemma launchBrowser_eq (pf : Platform) (cfg : Config) (w : World) :
  launchBrowser pf cfg w
  = (launch_value pf, record_all (launch_events pf cfg (isMobile w)) w).
Proof.
  unfold launchBrowser, launch_value, launch_events, try_catch, log, bind, get, emit,
    modify, await, ret, throw.
  destruct (launch pf) as [[] | r]; [reflexivity |].
  cbn [reason_of]. destruct (test (lit "Executable doesn't exist") (js r)); reflexivity.
Qed.

Lemma obtainFingerprint_eq (pf : Platform) (email : string) (w : World) :
  obtainFingerprint pf email w
  = (obtain_value pf email, record_all (obtain_events pf email) w).
Proof.
  unfold obtainFingerprint, obtain_value, obtain_events, bind, emit, modify, await,
    ret, throw.
  destruct (loadSessionData pf email) as [sd | r]; [| reflexivity].
  destruct (fingerprint sd) as [fp |]; [reflexivity |].
  destruct (updateFingerprintUserAgent pf) as [fp | r]; reflexivity.
Qed.

Lemma openContext_eq (pf : Platform) (cfg : Config) (email : string)
  (sd : SessionData) (fp : Fingerprint) (w : World) :
  openContext pf cfg email sd fp w
  = (context_value pf cfg email sd fp,
     record_all (context_events pf cfg email sd fp (isMobile w)) w).
Proof.
  unfold openContext, context_value, context_events, ready, saves, try_catch, log,
    bind, get, emit, modify, await, ret, throw.
  destruct (newInjectedContext pf fp) as [ctx | r0]; [| reflexivity].
  destruct (setDefaultTimeout pf) as [[] | r1]; [| reflexivity].
  destruct (onPage pf) as [[] | r2];
    (destruct (addCookies pf (cookies sd)) as [[] | r3]; [| reflexivity];
     destruct (mobile (saveFingerprint_of cfg) || desktop (saveFingerprint_of cfg));
     [destruct (saveFingerprintData pf email fp) as [[] | r4] |]; reflexivity).
Qed.

(** The whole run of [createBrowser]. *)
Lemma createBrowser_eq (pf : Platform) (cfg : Config) (email : string) (w : World) :
  createBrowser pf cfg email w
  = (createBrowser_value pf cfg email,
     record_all (createBrowser_events pf cfg email (isMobile w)) w).
Proof.
  unfold createBrowser, createBrowser_value, createBrowser_events.
  unfold bind at 1. rewrite autoInstall_eq.
  unfold bind at 1. rewrite launchBrowser_eq, isMobile_record_all.
  rewrite !record_all_app.
  destruct (launch_value pf) as [[] | e]; [| reflexivity].
  unfold bind at 1. rewrite obtainFingerprint_eq, record_all_app.
  destruct (obtain_value pf email) as [[sd fp] | e]; [| reflexivity].
  cbn [fst snd]. unfold bind. rewrite fingerprintGate_eq.
  fold (gate_value pf cfg email fp).
  change (LogFingerprintValidation email
          :: match gate_value pf cfg email fp with
             | Ok _ => context_events pf cfg email sd fp (isMobile w)
             | Throw _ => []
             end)
    with ([LogFingerprintValidation email]
          ++ match gate_value pf cfg email fp with
             | Ok _ => context_events pf cfg email sd fp (isMobile w)
             | Throw _ => []
             end).
  rewrite record_all_app.
  destruct (gate_value pf cfg email fp) as [[] | e]; [| reflexivity].
  rewrite openContext_eq, !isMobile_record_all. reflexivity.
Qed.

Lemma steps_app (evs1 evs2 : list event) :
  steps (evs1 ++ evs2) = steps evs1 ++ steps evs2.
Proof.
  induction evs1 as [| e evs1 IH]; [reflexivity |].
  destruct e; cbn [app steps]; now rewrite ?IH.
Qed.

Lemma steps_autoInstall (pf : Platform) (m : bool) :
  steps (autoInstall_events pf m) = if AUTO_INSTALL_BROWSERS pf then [AutoInstall] else [].
Proof.
  unfold autoInstall_events. destruct (AUTO_INSTALL_BROWSERS pf); [| reflexivity].
  destruct (execSync pf); reflexivity.
Qed.

Lemma steps_launch (pf : Platform) (cfg : Config) (m : bool) :
  steps (launch_events pf cfg m) = [Launch].
Proof.
  unfold launch_events. destruct (launch pf) as [u | r]; [reflexivity |].
  cbn [app steps]. destruct (test _ _); reflexivity.
Qed.

Lemma steps_obtain (pf : Platform) (email : string) :
  steps (obtain_events pf email) = obtain_events pf email.
Proof.
  unfold obtain_events. destruct (loadSessionData pf email) as [sd | r]; [| reflexivity].
  destruct (fingerprint sd); reflexivity.
Qed.

Lemma steps_context_opened (pf : Platform) (cfg : Config) (email : string)
  (sd : SessionData) (fp : Fingerprint) (m : bool) (ctx : BrowserContext) :
  context_value pf cfg email sd fp = Ok ctx ->
  newInjectedContext pf fp = Resolved ctx
  /\ steps (context_events pf cfg email sd fp m)
     = [NewInjectedContext; SetDefaultTimeout; OnPage; AddCookies]
       ++ (if saves cfg then [SaveFingerprintData email] else [])
  /\ exists evs, context_events pf cfg email sd fp m = evs ++ [ready m fp].
Proof.
  unfold context_value, context_events.
  destruct (newInjectedContext pf fp) as [ctx0 | r0]; [| discriminate].
  destruct (setDefaultTimeout pf) as [[] | r1]; [| discriminate].
  destruct (addCookies pf (cookies sd)) as [[] | r3]; [| discriminate].
  destruct (saves cfg).
  - destruct (saveFingerprintData pf email fp) as [[] | r4]; [| discriminate].
    intros [= ->]. split; [reflexivity |].
    destruct (onPage pf) as [[] | r2]; (split; [reflexivity |]).
    + now exists [NewInjectedContext; SetDefaultTimeout; OnPage; AddCookies;
                  SaveFingerprintData email].
    + eexists [NewInjectedContext; SetDefaultTimeout; OnPage; _; AddCookies;
               SaveFingerprintData email]. reflexivity.
  - intros [= ->]. split; [reflexivity |].
    destruct (onPage pf) as [[] | r2]; (split; [reflexivity |]).
    + now exists [NewInjectedContext; SetDefaultTimeout; OnPage; AddCookies].
    + eexists [NewInjectedContext; SetDefaultTimeout; OnPage; _; AddCookies]. reflexivity.
Qed.

(** X12. The install attempt of lines 19-31 never throws by itself.
    Without AUTO_INSTALL_BROWSERS nothing is done; with it, a throwing
    install command is caught and leaves one 'Auto-install failed'
    warning with its message. In every case [createBrowser] goes on to
    the launch: apart from log lines, its calls start with the install
    attempt (when asked for) followed by the launch. *)
Theorem install_attempt_never_throws (pf : Platform) (cfg : Config) (email : string)
  (w : World) :
  fst (autoInstall pf w) = Ok tt
  /\ (AUTO_INSTALL_BROWSERS pf = false -> snd (autoInstall pf w) = w)
  /\ (forall r,
         AUTO_INSTALL_BROWSERS pf = true ->
         execSync pf = Rejected r ->
         history (snd (autoInstall pf w))
         = history w
           ++ [ Log (isMobile w) "BROWSER" "Auto-installing Chromium..." "log";
                AutoInstall;
                Log (isMobile w) "BROWSER" ("Auto-install failed: " ++ r)%string "warn" ])
  /\ exists evs rest,
       history (snd (createBrowser pf cfg email w)) = history w ++ evs
       /\ steps evs
          = (if AUTO_INSTALL_BROWSERS pf then [AutoInstall] else []) ++ Launch :: rest.
Proof.
  rewrite autoInstall_eq. cbn [fst snd].
  split; [reflexivity |]. split; [| split].
  - intros F. unfold autoInstall_events. now rewrite F.
  - intros r F E. rewrite history_record_all. unfold autoInstall_events.
    now rewrite F, E.
  - rewrite createBrowser_eq. cbn [snd]. rewrite history_record_all.
    eexists. eexists. split; [reflexivity |].
    unfold createBrowser_events.
    rewrite steps_app, steps_autoInstall, steps_app, steps_launch. reflexivity.
Qed.

Lemma install_attempt_never_throws_witness :
  history (snd (autoInstall (with_install true (Rejected "npx: command not found")
                               (platform sound)) (fresh "a@x")))
  = [ Log false "BROWSER" "Auto-installing Chromium..." "log";
      AutoInstall;
      Log false "BROWSER" "Auto-install failed: npx: command not found" "warn" ].
Proof.
  destruct (@install_attempt_never_throws
              (with_install true (Rejected "npx: command not found") (platform sound))
              (config None) "a@x" (fresh "a@x")) as (_ & _ & H & _).
  apply (H "npx: command not found"); reflexivity.
Defined.

(** X13. When the launch is rejected, [createBrowser] throws that same
    rejection, and the last thing it did is to log an error line: the
    install hint when the message says the executable does not exist,
    'Failed to launch browser: ' and the message otherwise. Apart from
    log lines, the only calls made are the install attempt (when asked
    for) and the launch: the session data is not read and no context is
    asked for. *)
Theorem launch_failure_is_rethrown (pf : Platform) (cfg : Config) (email : string)
  (w : World) (r : string) :
  launch pf = Rejected r ->
  fst (createBrowser pf cfg email w) = Throw (Foreign r)
  /\ exists evs msg,
       history (snd (createBrowser pf cfg email w))
       = history w ++ evs ++ [Log (isMobile w) "BROWSER" msg "error"]
       /\ steps evs = (if AUTO_INSTALL_BROWSERS pf then [AutoInstall] else []) ++ [Launch]
       /\ msg = if test (lit "Executable doesn't exist") (js r)
                then ("Chromium not installed. Run " ++ dq ++ "npm run pre-build" ++ dq
                      ++ " or set AUTO_INSTALL_BROWSERS=1")%string
                else ("Failed to launch browser: " ++ r)%string.
Proof.
  intros L. rewrite createBrowser_eq. cbn [fst snd]. rewrite history_record_all.
  unfold createBrowser_value, createBrowser_events, launch_value, launch_events.
  rewrite L. split; [reflexivity |].
  eexists (autoInstall_events pf (isMobile w) ++ [_; Launch]), _.
  split; [| split; [| reflexivity]].
  - rewrite app_nil_r, <- !app_assoc. cbn [app].
    destruct (test (lit "Executable doesn't exist") (js r)); reflexivity.
  - rewrite steps_app, steps_autoInstall. reflexivity.
Qed.

Lemma launch_failure_is_rethrown_witness :
  fst (createBrowser (with_launch (Rejected "Executable doesn't exist at /ms-playwright")
                        (platform sound))
         (config None) "a@x" (fresh "a@x"))
  = Throw (Foreign "Executable doesn't exist at /ms-playwright").
Proof.
  apply (@launch_failure_is_rethrown
           (with_launch (Rejected "Executable doesn't exist at /ms-playwright")
              (platform sound))
           (config None) "a@x" (fresh "a@x")).
  reflexivity.
Defined.

Lemma no_generation_outside (pf : Platform) (cfg : Config) (email : string)
  (sd : SessionData) (fp : Fingerprint) (m : bool) :
  ~ In GenerateFingerprint (autoInstall_events pf m)
  /\ ~ In GenerateFingerprint (launch_events pf cfg m)
  /\ ~ In GenerateFingerprint (context_events pf cfg email sd fp m).
Proof.
  unfold autoInstall_events, launch_events, context_events, ready.
  split; [| split].
  - destruct (AUTO_INSTALL_BROWSERS pf); [| auto].
    destruct (execSync pf); cbn; intuition discriminate.
  - destruct (launch pf); [cbn; intuition discriminate |].
    destruct (test _ _); cbn; intuition discriminate.
  - destruct (newInjectedContext pf fp); destruct (setDefaultTimeout pf);
      destruct (onPage pf); destruct (addCookies pf (cookies sd));
      destruct (saves cfg); destruct (saveFingerprintData pf email fp);
      cbn; intuition discriminate.
Qed.

(** X14. A fingerprint stored with the session is reused: when the stored
    session carries one, none is generated, the validation is made on the
    stored one and so is the context; a fingerprint is generated exactly
    when the stored session has none. *)
Theorem stored_fingerprint_is_reused (pf : Platform) (cfg : Config) (email : string)
  (w : World) (u : unit) (sd : SessionData) :
  launch pf = Resolved u ->
  loadSessionData pf email = Resolved sd ->
  exists evs,
    history (snd (createBrowser pf cfg email w)) = history w ++ evs
    /\ (In GenerateFingerprint evs <-> fingerprint sd = None)
    /\ forall fp,
         fingerprint sd = Some fp ->
         validation_reached pf cfg email = Some (validateFingerprintConsistency pf fp cfg)
         /\ forall ctx, fst (createBrowser pf cfg email w) = Ok ctx ->
                        newInjectedContext pf fp = Resolved ctx.
Proof.
  intros L S. rewrite createBrowser_eq. cbn [fst snd]. rewrite history_record_all.
  eexists. split; [reflexivity |]. split.
  - unfold createBrowser_events, launch_value, obtain_events, obtain_value.
    rewrite L, S. split.
    + intros H. destruct (fingerprint sd) as [fp |]; [exfalso | reflexivity].
      destruct (no_generation_outside pf cfg email sd fp (isMobile w)) as (N1 & N2 & N3).
      apply in_app_or in H as [H | H]; [auto |].
      apply in_app_or in H as [H | H]; [auto |].
      apply in_app_or in H as [H | H]; [cbn in H; intuition discriminate |].
      destruct H as [H | H]; [discriminate |].
      destruct (gate_value pf cfg email fp) as [[] | e]; [auto | destruct H].
    + intros ->. apply in_or_app. right. apply in_or_app. right.
      apply in_or_app. left. cbn. auto.
  - intros fp F. unfold validation_reached, fingerprint_used. rewrite L, S, F.
    split; [reflexivity |].
    unfold createBrowser_value, launch_value, obtain_value. rewrite L, S, F.
    destruct (gate_value pf cfg email fp) as [[] | e]; [| discriminate].
    intros ctx H. now apply (steps_context_opened pf cfg email sd fp true) in H as [H _].
Qed.

Lemma stored_fingerprint_is_reused_witness :
  fst (createBrowser (with_session {| userAgent := "Stored/1.0" |} (platform sound))
         (config None) "a@x" (fresh "a@x"))
  = Ok {| injected := {| userAgent := "Stored/1.0" |} |}
  /\ ~ In GenerateFingerprint
        (history (snd (createBrowser
                         (with_session {| userAgent := "Stored/1.0" |} (platform sound))
                         (config None) "a@x" (fresh "a@x")))).
Proof.
  destruct (@stored_fingerprint_is_reused
              (with_session {| userAgent := "Stored/1.0" |} (platform sound))
              (config None) "a@x" (fresh "a@x") tt
              {| cookies := ["c=1"]; fingerprint := Some {| userAgent := "Stored/1.0" |} |}
              eq_refl eq_refl) as (evs & H & Hgen & _).
  split; [reflexivity |].
  rewrite H. cbn [fresh history app]. intros Hin. apply Hgen in Hin. discriminate Hin.
Defined.

Lemma in_steps (e : event) (evs : list event) :
  In e (steps evs) -> In e evs.
Proof.
  induction evs as [| e' evs IH]; [auto |].
  destruct e'; cbn [steps In]; intuition.
Qed.

Lemma steps_keep (e : event) (evs : list event) :
  steps [e] = [e] -> In e evs -> In e (steps evs).
Proof.
  intros K. induction evs as [| e' evs IH]; [auto |].
  intros [-> | H].
  - change (e :: evs) with ([e] ++ evs). rewrite steps_app, K. now left.
  - destruct e'; cbn [steps In]; auto.
Qed.

(** The calls of a run that hands back a context. *)
Lemma success_steps (pf : Platform) (cfg : Config) (email : string) (m : bool)
  (ctx : BrowserContext) :
  createBrowser_value pf cfg email = Ok ctx ->
  exists sd fp,
    fingerprint_used pf email = Some (sd, fp)
    /\ gate_value pf cfg email fp = Ok tt
    /\ newInjectedContext pf fp = Resolved ctx
    /\ steps (createBrowser_events pf cfg email m)
       = (if AUTO_INSTALL_BROWSERS pf then [AutoInstall] else [])
         ++ [Launch; LoadSessionData email]
         ++ match fingerprint sd with Some _ => [] | None => [GenerateFingerprint] end
         ++ [LogFingerprintValidation email; NewInjectedContext; SetDefaultTimeout;
             OnPage; AddCookies]
         ++ (if saves cfg then [SaveFingerprintData email] else [])
    /\ exists evs, createBrowser_events pf cfg email m = evs ++ [ready m fp].
Proof.
  unfold createBrowser_value, createBrowser_events, fingerprint_used, launch_value.
  destruct (launch pf) as [u | r] eqn:L; [| discriminate].
  destruct (obtain_value pf email) as [[sd fp] | e] eqn:O; [| discriminate].
  destruct (gate_value pf cfg email fp) as [[] | e] eqn:G; [| discriminate].
  intros V. destruct (steps_context_opened pf cfg email sd fp m V) as (N & St & (evs & Hl)).
  exists sd, fp.
  assert (U : match loadSessionData pf email with
              | Resolved sd0 =>
                  match fingerprint sd0 with
                  | Some fp0 => Some (sd0, fp0)
                  | None => match updateFingerprintUserAgent pf with
                            | Resolved fp0 => Some (sd0, fp0)
                            | Rejected _ => None
                            end
                  end
              | Rejected _ => None
              end = Some (sd, fp)
              /\ obtain_events pf email
                 = LoadSessionData email
                   :: match fingerprint sd with Some _ => [] | None => [GenerateFingerprint] end).
  { unfold obtain_value, obtain_events in *.
    destruct (loadSessionData pf email) as [sd0 | r]; [| discriminate].
    destruct (fingerprint sd0) as [fp0 |] eqn:F.
    - injection O as <- <-. now rewrite F.
    - destruct (updateFingerprintUserAgent pf) as [fp0 | r]; [| discriminate].
      injection O as <- <-. now rewrite F. }
  destruct U as [U Oe].
  split; [exact U |]. split; [exact G |]. split; [exact N |]. split.
  - rewrite !steps_app, steps_autoInstall, steps_launch, steps_obtain, Oe.
    change (steps (LogFingerprintValidation email :: context_events pf cfg email sd fp m))
      with (LogFingerprintValidation email :: steps (context_events pf cfg email sd fp m)).
    rewrite St. cbn [app]. reflexivity.
  - rewrite Hl.
    exists (autoInstall_events pf m ++ launch_events pf cfg m ++ obtain_events pf email
            ++ LogFingerprintValidation email :: evs).
    now rewrite <- !app_assoc.
Qed.

(** X17. When [createBrowser] hands back a context, it is the context
    injected with the fingerprint that passed the gate (valid, or
    stopOnCritical not set), and the calls made were, in this order: the
    install attempt when asked for, the launch, the session load, the
    generation when the session had no fingerprint, the validation log,
    the context, its default timeout, the page handler, the cookies and,
    when saving is configured, the saving of the fingerprint; the last
    thing done is the 'Browser ready' log line. *)
Theorem success_trace (pf : Platform) (cfg : Config) (email : string) (w : World)
  (ctx : BrowserContext) :
  fst (createBrowser pf cfg email w) = Ok ctx ->
  exists sd fp evs,
    fingerprint_used pf email = Some (sd, fp)
    /\ newInjectedContext pf fp = Resolved ctx
    /\ (valid (validateFingerprintConsistency pf fp cfg) = true
        \/ stops_on_critical cfg = false)
    /\ history (snd (createBrowser pf cfg email w))
       = history w ++ evs ++ [ready (isMobile w) fp]
    /\ steps evs
       = (if AUTO_INSTALL_BROWSERS pf then [AutoInstall] else [])
         ++ [Launch; LoadSessionData email]
         ++ match fingerprint sd with Some _ => [] | None => [GenerateFingerprint] end
         ++ [LogFingerprintValidation email; NewInjectedContext; SetDefaultTimeout;
             OnPage; AddCookies]
         ++ (if saves cfg then [SaveFingerprintData email] else []).
Proof.
  rewrite createBrowser_eq. cbn [fst snd]. intros V.
  destruct (success_steps pf cfg email (isMobile w) V)
    as (sd & fp & U & G & N & St & (evs & Hl)).
  exists sd, fp, evs. split; [exact U |]. split; [exact N |]. split.
  { unfold gate_value in G.
    destruct (valid (validateFingerprintConsistency pf fp cfg)); [auto |].
    destruct (stops_on_critical cfg); [discriminate | auto]. }
  rewrite history_record_all, Hl. split; [reflexivity |].
  rewrite Hl, steps_app in St. cbn [ready steps] in St. now rewrite app_nil_r in St.
Qed.

Lemma success_trace_witness :
  exists evs,
    history (snd (createBrowser (platform mismatch) (config None) "a@x" (fresh "a@x")))
    = evs ++ [ready false {| userAgent := "Mozilla/5.0" |}]
    /\ steps evs = [Launch; LoadSessionData "a@x"; GenerateFingerprint;
                    LogFingerprintValidation "a@x"; NewInjectedContext;
                    SetDefaultTimeout; OnPage; AddCookies].
Proof.
  destruct (@success_trace (platform mismatch) (config None) "a@x" (fresh "a@x")
              {| injected := {| userAgent := "Mozilla/5.0" |} |} eq_refl)
    as (sd & fp & evs & U & _ & _ & H & St).
  injection U as <- <-.
  exists evs. split; [exact H | exact St].
Defined.

(** X15. In a run that hands back a context the fingerprint is saved
    exactly when the effective saveFingerprint setting has mobile or
    desktop set, whichever kind of bot is running. The top-level (legacy)
    setting, when present, is the effective one even when both its flags
    are off; the nested one counts only without it; with neither nothing
    is saved. *)
Theorem fingerprint_saved_iff (pf : Platform) (cfg : Config) (email : string) (w : World)
  (ctx : BrowserContext) :
  fst (createBrowser pf cfg email w) = Ok ctx ->
  exists evs,
    history (snd (createBrowser pf cfg email w)) = history w ++ evs
    /\ (In (SaveFingerprintData email) evs
        <-> mobile (saveFingerprint_of cfg) || desktop (saveFingerprint_of cfg) = true)
    /\ (forall f, legacySaveFingerprint cfg = Some f ->
          (In (SaveFingerprintData email) evs <-> mobile f || desktop f = true))
    /\ (forall f, legacySaveFingerprint cfg = None -> nestedSaveFingerprint cfg = Some f ->
          (In (SaveFingerprintData email) evs <-> mobile f || desktop f = true))
    /\ (legacySaveFingerprint cfg = None -> nestedSaveFingerprint cfg = None ->
        ~ In (SaveFingerprintData email) evs).
Proof.
  rewrite createBrowser_eq. cbn [fst snd]. intros V. rewrite history_record_all.
  destruct (success_steps pf cfg email (isMobile w) V)
    as (sd & fp & _ & _ & _ & St & _).
  exists (createBrowser_events pf cfg email (isMobile w)).
  split; [reflexivity |].
  assert (Hiff : In (SaveFingerprintData email) (createBrowser_events pf cfg email (isMobile w))
                 <-> saves cfg = true).
  { split.
    - intros H. apply (@steps_keep (SaveFingerprintData email)) in H; [| reflexivity].
      rewrite St in H. destruct (saves cfg); [reflexivity | exfalso].
      destruct (AUTO_INSTALL_BROWSERS pf); destruct (fingerprint sd);
        cbn in H; intuition discriminate.
    - intros S. apply in_steps. rewrite St, S.
      do 4 (apply in_or_app; right). cbn. auto. }
  split; [exact Hiff |]. unfold saves, saveFingerprint_of in Hiff.
  split; [intros f L; now rewrite L in Hiff |].
  split; [intros f L N; now rewrite L, N in Hiff |].
  intros L N. rewrite L, N in Hiff. cbn in Hiff. intros H. apply Hiff in H. discriminate.
Qed.

Lemma fingerprint_saved_iff_witness :
  ~ In (SaveFingerprintData "a@x")
       (history (snd (createBrowser (platform sound)
                        {| headless := None; riskManagement := None;
                           legacySaveFingerprint := Some {| mobile := false; desktop := false |};
                           nestedSaveFingerprint := Some {| mobile := true; desktop := true |} |}
                        "a@x" (fresh "a@x")))).
Proof.
  destruct (@fingerprint_saved_iff (platform sound)
              {| headless := None; riskManagement := None;
                 legacySaveFingerprint := Some {| mobile := false; desktop := false |};
                 nestedSaveFingerprint := Some {| mobile := true; desktop := true |} |}
              "a@x" (fresh "a@x") {| injected := {| userAgent := "Mozilla/5.0" |} |} eq_refl)
    as (evs & H & _ & Hl & _).
  rewrite H. cbn [fresh history app]. intros Hin.
  apply (Hl {| mobile := false; desktop := false |} eq_refl) in Hin. discriminate Hin.
Defined.

(** X16. A failure to register the page handler is only logged: whatever
    [context.on('page', ...)] does, [createBrowser] ends the same way and
    makes the same calls, log lines apart. *)
Theorem page_handler_failure_is_swallowed (pf : Platform) (cfg : Config) (email : string)
  (w : World) (o : outcome unit) :
  fst (createBrowser (with_onPage o pf) cfg email w) = fst (createBrowser pf cfg email w)
  /\ exists evs evs',
       history (snd (createBrowser (with_onPage o pf) cfg email w)) = history w ++ evs
       /\ history (snd (createBrowser pf cfg email w)) = history w ++ evs'
       /\ steps evs = steps evs'.
Proof.
  rewrite !createBrowser_eq. cbn [fst snd]. rewrite !history_record_all.
  split; [reflexivity |].
  eexists. eexists. split; [reflexivity |]. split; [reflexivity |].
  unfold createBrowser_events. rewrite !steps_app.
  f_equal. f_equal.
  change (launch_value (with_onPage o pf)) with (launch_value pf).
  destruct (launch_value pf) as [[] | e]; [| reflexivity].
  rewrite !steps_app. f_equal.
  change (obtain_value (with_onPage o pf) email) with (obtain_value pf email).
  destruct (obtain_value pf email) as [[sd fp] | e]; [| reflexivity].
  change (gate_value (with_onPage o pf) cfg email fp) with (gate_value pf cfg email fp).
  destruct (gate_value pf cfg email fp) as [[] | e]; [| reflexivity].
  cbn [steps]. f_equal.
  unfold context_events. cbn [with_onPage newInjectedContext setDefaultTimeout onPage
                               addCookies saveFingerprintData].
  destruct (newInjectedContext pf fp); [| reflexivity].
  destruct (setDefaultTimeout pf); [| reflexivity].
  cbn [steps]. do 2 f_equal.
  rewrite !steps_app. f_equal.
  destruct o; destruct (onPage pf); reflexivity.
Qed.

(* ================================================================== *)
(** * Properties of buildPlaywrightProxy                                *)
(* ================================================================== *)

Lemma scheme_tail_host (h rest : jstring) :
  forallb is_scheme_unit h = true -> scheme_tail (h ++ 58%N :: rest) = true.
Proof.
  induction h as [| c h IH]; cbn [forallb app scheme_tail]; [reflexivity |].
  intros H. apply andb_true_iff in H as [Hc Hh].
  destruct (c =? 58)%N; [reflexivity |]. rewrite Hc. now apply IH.
Qed.

(** X18. What is handed to the URL parser always starts with a scheme:
    the trimmed address itself when it has one, 'http://' followed by it
    otherwise. A bare 'host:port' address counts as having a scheme (the
    host, made of letters, digits, '+', '.' and '-' after a first letter,
    is read as the scheme), so it is handed over without 'http://'. *)
Theorem candidate_has_scheme (given : jstring) :
  hasScheme (candidate given) = true
  /\ (candidate given = trim given \/ candidate given = js "http://" ++ trim given)
  /\ forall c h rest,
       is_alpha c = true ->
       forallb is_scheme_unit h = true ->
       trim given = c :: h ++ 58%N :: rest ->
       candidate given = trim given.
Proof.
  unfold candidate. split; [| split].
  - destruct (hasScheme (trim given)) eqn:H; [exact H | reflexivity].
  - destruct (hasScheme (trim given)); auto.
  - intros c h rest Hc Hh E. rewrite E. cbn [hasScheme].
    now rewrite Hc, (scheme_tail_host h rest Hh).
Qed.

Lemma candidate_has_scheme_witness :
  candidate (js "  proxy.example:3128 ") = js "proxy.example:3128"
  /\ candidate (js " 10.0.0.1:3128") = js "http://10.0.0.1:3128".
Proof.
  split; [| reflexivity].
  destruct (candidate_has_scheme (js "  proxy.example:3128 ")) as (_ & _ & H).
  rewrite (H 112%N (js "roxy.example") (js "3128")); reflexivity.
Defined.

(** X19. [buildPlaywrightProxy] never throws, and it hands back no proxy
    in exactly three cases: the address is empty (silently); the parser
    rejects the candidate (one 'Invalid proxy URL' line with the parser's
    message); the parsed address has no port and the account gives none,
    that is 0 (one 'Proxy port missing' line). Whenever it hands back a
    proxy it has logged nothing. *)
Theorem proxy_undefined_iff (api : UrlApi) (proxy : AccountProxy) :
  (fst (buildPlaywrightProxy api proxy) = None
   <-> url proxy = []
       \/ (exists err, new_URL api (candidate (url proxy)) = Throw err)
       \/ (exists parsed, new_URL api (candidate (url proxy)) = Ok parsed
                          /\ url_port parsed = EmptyString /\ port proxy = Z0))
  /\ (url proxy = [] -> snd (buildPlaywrightProxy api proxy) = [])
  /\ (forall err, url proxy <> [] -> new_URL api (candidate (url proxy)) = Throw err ->
        snd (buildPlaywrightProxy api proxy) = [InvalidProxyUrl (url proxy) (reason_of err)])
  /\ (forall parsed, url proxy <> [] -> new_URL api (candidate (url proxy)) = Ok parsed ->
        url_port parsed = EmptyString -> port proxy = Z0 ->
        snd (buildPlaywrightProxy api proxy) = [ProxyPortMissing (url proxy)])
  /\ (forall p, fst (buildPlaywrightProxy api proxy) = Some p ->
        snd (buildPlaywrightProxy api proxy) = []).
Proof.
  unfold buildPlaywrightProxy.
  destruct (url proxy) as [| c0 u0] eqn:U.
  - cbn [fst snd]. repeat split; auto; try congruence; try discriminate.
  - destruct (new_URL api (candidate (c0 :: u0))) as [parsed | err] eqn:P.
    + destruct (String.eqb_spec (url_port parsed) EmptyString) as [E | E].
      * destruct (BinInt.Z.eqb_spec (port proxy) Z0) as [Z | Z]; cbn [fst snd].
        -- split; [split; [intros _; right; right; eauto | reflexivity] |].
           split; [discriminate |]. split; [discriminate |].
           split; [reflexivity | discriminate].
        -- split.
           { split; [discriminate |].
             intros [H | [(err & H) | (p & H & _ & Hz)]]; congruence. }
           split; [discriminate |]. split; [discriminate |].
           split; [intros p _ [= <-] _ Hz; contradiction | reflexivity].
      * cbn [fst snd]. split.
        { split; [discriminate |].
          intros [H | [(err & H) | (p & H & He & _)]]; congruence. }
        split; [discriminate |]. split; [discriminate |].
        split; [intros p _ [= <-] He; contradiction | reflexivity].
    + cbn [fst snd]. split; [split; [intros _; right; left; eauto | reflexivity] |].
      split; [discriminate |].
      split; [intros err' _ [= <-]; reflexivity |].
      split; [discriminate | discriminate].
Qed.

Lemma proxy_undefined_iff_witness :
  buildPlaywrightProxy sample_api (sample_proxy "proxy.example" Z0 "u" "p")
  = (None, [ProxyPortMissing (js "proxy.example")]).
Proof.
  apply injective_projections.
  - apply (proxy_undefined_iff sample_api (sample_proxy "proxy.example" Z0 "u" "p")).
    right. right. eexists. split; [reflexivity |]. split; reflexivity.
  - eapply (proxy_undefined_iff sample_api (sample_proxy "proxy.example" Z0 "u" "p"));
      [discriminate | reflexivity | reflexivity | reflexivity].
Defined.

(** X20. A port written in the address wins: when the parsed address has
    a port, the account's port field is not looked at and the server is
    protocol, '//', host, ':' and that port. The account's port is used
    only for an address without one, through the URL's own port setter,
    and the server then shows whatever port the URL holds after the
    assignment (none when the setter left it empty). *)
Theorem address_port_wins (api : UrlApi) (proxy : AccountProxy) (parsed : URL) :
  url proxy <> [] ->
  new_URL api (candidate (url proxy)) = Ok parsed ->
  (url_port parsed <> EmptyString ->
   forall other,
     fst (buildPlaywrightProxy api
            {| url := url proxy; port := other;
               username := username proxy; password := password proxy |})
     = fst (buildPlaywrightProxy api proxy)
     /\ exists p, fst (buildPlaywrightProxy api proxy) = Some p
                  /\ server p = (protocol parsed ++ "//" ++ hostname parsed
                                 ++ ":" ++ url_port parsed)%string)
  /\ (url_port parsed = EmptyString -> port proxy <> Z0 ->
      let assigned := assign_port api parsed (String_of_number api (port proxy)) in
      exists p, fst (buildPlaywrightProxy api proxy) = Some p
                /\ server p
                   = (protocol assigned ++ "//" ++ hostname assigned
                      ++ (if String.eqb (url_port assigned) EmptyString then EmptyString
                          else ":" ++ url_port assigned))%string).
Proof.
  intros U P. unfold buildPlaywrightProxy. cbn [url port username password].
  destruct (url proxy) as [| c0 u0]; [contradiction |]. rewrite P.
  split.
  - intros E other. destruct (String.eqb_spec (url_port parsed) EmptyString); [contradiction |].
    cbn [fst]. split; [reflexivity |].
    eexists. split; [reflexivity |]. unfold proxy_of. cbn [server].
    destruct (String.eqb_spec (url_port parsed) EmptyString); [contradiction | reflexivity].
  - intros E Hz. rewrite E. cbn [String.eqb].
    destruct (BinInt.Z.eqb_spec (port proxy) Z0); [contradiction |].
    cbn [fst]. eexists. split; reflexivity.
Qed.

Lemma address_port_wins_witness :
  exists p,
    fst (buildPlaywrightProxy sample_api
           (sample_proxy "http://proxy.example:3128" (Zpos 8080) "u" EmptyString)) = Some p
    /\ server p = "http://proxy.example:3128".
Proof.
  destruct (@address_port_wins sample_api
              (sample_proxy "http://proxy.example:3128" (Zpos 8080) "u" EmptyString)
              {| protocol := "http:"; hostname := "proxy.example"; url_port := "3128" |})
    as [H _]; [discriminate | reflexivity |].
  assert (Hne : url_port {| protocol := "http:"; hostname := "proxy.example";
                            url_port := "3128" |} <> EmptyString) by discriminate.
  destruct (H Hne (Zpos 8080)) as (_ & p & Hp & Hs).
  exists p. split; [exact Hp | exact Hs].
Defined.

(** X21. The credentials of the proxy handed back are the account's,
    each on its own: a user name is given exactly when the account's is
    not empty, a password exactly when the account's is not empty, and
    neither is ever the empty string. *)
Theorem proxy_credentials (api : UrlApi) (proxy : AccountProxy) (p : PlaywrightProxy) :
  fst (buildPlaywrightProxy api proxy) = Some p ->
  (auth_username p = None <-> username proxy = EmptyString)
  /\ (auth_password p = None <-> password proxy = EmptyString)
  /\ (forall u, auth_username p = Some u -> u = username proxy /\ u <> EmptyString)
  /\ (forall v, auth_password p = Some v -> v = password proxy /\ v <> EmptyString).
Proof.
  assert (N : forall s, (nonempty s = None <-> s = EmptyString)
                        /\ forall t, nonempty s = Some t -> t = s /\ t <> EmptyString).
  { intros s. unfold nonempty. destruct (String.eqb_spec s EmptyString) as [E | E].
    - split; [tauto | discriminate].
    - split; [split; [discriminate | contradiction] |].
      intros t [= <-]. auto. }
  unfold buildPlaywrightProxy.
  destruct (url proxy); [discriminate |].
  destruct (new_URL api _) as [parsed | err]; [| discriminate].
  destruct (String.eqb (url_port parsed) EmptyString);
    [destruct (BinInt.Z.eqb (port proxy) Z0); [discriminate |] |];
    cbn [fst]; intros [= <-]; cbn [proxy_of auth_username auth_password];
    (split; [apply N |]; split; [apply N |]; split; apply N).
Qed.

Lemma proxy_credentials_witness :
  exists p,
    fst (buildPlaywrightProxy sample_api
           (sample_proxy "proxy.example" (Zpos 8080) EmptyString "secret")) = Some p
    /\ auth_username p = None /\ auth_password p = Some "secret".
Proof.
  eexists. split; [reflexivity |].
  destruct (@proxy_credentials sample_api
              (sample_proxy "proxy.example" (Zpos 8080) EmptyString "secret")
              _ eq_refl) as (Hu & _).
  split; [apply Hu; reflexivity | reflexivity].
Defined.

(* ================================================================== *)
(** * Properties of Humanizer.actionPause                               *)
(* ================================================================== *)

Section HumanizerFacts.
Import QArith Qminmax Lqa.
Local Open Scope Q_scope.


Lemma Qle_bool_false (a b : Q) : Qle_bool a b = false -> b < a.
Proof.
  intros H. apply Qnot_le_lt. intros L. apply Qle_bool_iff in L. congruence.
Qed.

(** X22. [actionPause] makes no call at all exactly when the
    configuration says [enabled: false]; otherwise it draws once and
    waits once for what was drawn, and it fails only when the wait does.
    Without a configuration, or without an actionDelay in it, the draw is
    between 150 and 450. *)
Theorem pause_unless_disabled (util : Util) (cfg : option ConfigHumanization) :
  (snd (actionPause util cfg) = []
   <-> exists c, cfg = Some c /\ enabled c = Some false)
  /\ ((exists c, cfg = Some c /\ enabled c = Some false) ->
      fst (actionPause util cfg) = Ok tt)
  /\ (snd (actionPause util cfg) <> [] ->
      exists lo hi,
        pauseRange util cfg = (lo, hi)
        /\ snd (actionPause util cfg)
           = [RandomNumber lo hi; Wait (randomNumber util lo hi)]
        /\ (fst (actionPause util cfg) = Ok tt
            <-> wait util (randomNumber util lo hi) = Resolved tt))
  /\ (cfg = None \/ (exists c, cfg = Some c /\ actionDelay c = None) ->
      pauseRange util cfg = (150, 450)).
Proof.
  assert (D : disabled cfg = true <-> exists c, cfg = Some c /\ enabled c = Some false).
  { unfold disabled. destruct cfg as [c |].
    - destruct (enabled c) as [[|] |] eqn:E; split; try discriminate; eauto;
        intros (c' & [= <-] & H); congruence.
    - split; [discriminate | intros (c' & [=] & _)]. }
  unfold actionPause.
  destruct (disabled cfg) eqn:Dis.
  - cbn [fst snd]. split; [split; [intros _; now apply D | reflexivity] |].
    split; [reflexivity |]. split; [intros H; now elim H |].
    intros [-> | (c & -> & A)]; unfold pauseRange; [reflexivity | now rewrite A].
  - destruct (pauseRange util cfg) as [lo hi] eqn:R. cbn [fst snd].
    split; [split; [discriminate | intros H; apply D in H; discriminate] |].
    split; [intros H; apply D in H; discriminate |].
    split.
    + intros _. exists lo, hi. split; [reflexivity |]. split; [reflexivity |].
      destruct (wait util (randomNumber util lo hi)) as [[] | r];
        split; try reflexivity; discriminate.
    + intros [-> | (c & -> & A)]; unfold pauseRange in R; [| rewrite A in R];
        now injection R as <- <-.
Qed.

Lemma pause_unless_disabled_witness :
  snd (actionPause sample_util None) = [RandomNumber 150 450; Wait 150].
Proof.
  destruct (pause_unless_disabled sample_util None) as (_ & _ & H & Hd).
  destruct H as (lo & hi & R & Hc & _); [discriminate |].
  rewrite Hd in R by (left; reflexivity). injection R as <- <-. exact Hc.
Defined.



(** X24. The two bounds may be given in either order: exchanging min and
    max in the configuration gives the same range (as numbers). *)
Theorem pause_range_symmetric (util : Util) (a b : delay) :
  fst (pauseRange util (with_delay a b)) == fst (pauseRange util (with_delay b a))
  /\ snd (pauseRange util (with_delay a b)) == snd (pauseRange util (with_delay b a)).
Proof.
  unfold pauseRange, with_delay. cbn [actionDelay delayMin delayMax].
  destruct (Qle_bool (parse util a) (parse util b)) eqn:E1;
    destruct (Qle_bool (parse util b) (parse util a)) eqn:E2; cbn [negb fst snd].
  - apply Qle_bool_iff in E1, E2.
    assert (E : parse util a == parse util b) by now apply Qle_antisym.
    split; [exact E |]. now rewrite E.
  - split; reflexivity.
  - split; reflexivity.
  - apply Qle_bool_false in E1, E2. lra.
Qed.

(** X25. The range handed to [randomNumber] is in order exactly when the
    smaller of the two parsed bounds is at most 5000: the cap of line 57
    comes after the exchange of line 56, so when both bounds exceed 5000
    the lower bound handed over is above the upper one, which is 5000. *)
Theorem pause_range_ordered_iff (util : Util) (a b : delay) :
  (fst (pauseRange util (with_delay a b)) <= snd (pauseRange util (with_delay a b))
   <-> Qmin (parse util a) (parse util b) <= 5000)
  /\ (5000 < parse util a -> 5000 < parse util b ->
      snd (pauseRange util (with_delay a b)) == 5000
      /\ snd (pauseRange util (with_delay a b)) < fst (pauseRange util (with_delay a b))).
Proof.
  unfold pauseRange, with_delay. cbn [actionDelay delayMin delayMax].
  destruct (Qle_bool (parse util a) (parse util b)) eqn:E; cbn [negb fst snd].
  - apply Qle_bool_iff in E. split.
    + rewrite (Q.min_l _ _ E). split.
      * intros H. apply (Qle_trans _ _ _ H), Q.le_min_r.
      * intros H. apply Q.min_glb; assumption.
    + intros Ha Hb.
      assert (M : Qmin (parse util b) 5000 == 5000) by (apply Q.min_r; lra).
      split; [exact M | rewrite M; exact Ha].
  - apply Qle_bool_false in E. split.
    + rewrite (Q.min_r (parse util a) (parse util b)) by lra. split.
      * intros H. apply (Qle_trans _ _ _ H), Q.le_min_r.
      * intros H. apply Q.min_glb; [lra | assumption].
    + intros Ha Hb.
      assert (M : Qmin (parse util a) 5000 == 5000) by (apply Q.min_r; lra).
      split; [exact M | rewrite M; exact Hb].
Qed.

Lemma pause_range_ordered_iff_witness :
  snd (actionPause sample_util (with_delay (DelayString "8s") (DelayString "6s")))
  = [RandomNumber 6000 5000; Wait 6000]
  /\ snd (pauseRange sample_util (with_delay (DelayString "8s") (DelayString "6s")))
     < fst (pauseRange sample_util (with_delay (DelayString "8s") (DelayString "6s"))).
Proof.
  split; [reflexivity |].
  apply (pause_range_ordered_iff sample_util (DelayString "8s") (DelayString "6s"));
    reflexivity.
Defined.

End HumanizerFacts.

(* ================================================================== *)
(** * Short texts and blank addresses                                   *)
(* ================================================================== *)

Lemma match_here_length (re : regex) (s : jstring) :
  match_here re s = true -> least_length re <= List.length s.
Proof.
  revert s. induction re as [| [p | cs] re IH]; intros s H; cbn [least_length].
  - lia.
  - destruct s as [| c s]; [discriminate |]. cbn [match_here] in H.
    apply andb_true_iff in H as [_ H]. apply IH in H. cbn [List.length]. lia.
  - destruct s as [| c s]; cbn [match_here] in H; [now apply IH |].
    apply orb_true_iff in H as [H | H]; [| now apply IH].
    apply andb_true_iff in H as [_ H]. apply IH in H. cbn [List.length]. lia.
Qed.

Lemma test_length (re : regex) (s : jstring) :
  test re s = true -> least_length re <= List.length s.
Proof.
  induction s as [| c s IH]; cbn [test]; intros H.
  - rewrite orb_false_r in H. now apply match_here_length.
  - apply orb_true_iff in H as [H | H]; [now apply match_here_length |].
    apply IH in H. cbn [List.length]. lia.
Qed.

(** X8. A text of fewer than 19 code units is never classified: the
    shortest wording of the table, 'we cant sign you in', has 19. A check
    whose headings give so little text returns false. *)
Theorem short_text_never_matches (lower : jstring) :
  List.length lower < 19 ->
  first_match SIGN_IN_BLOCK_PATTERNS lower = None
  /\ forall (engine : JsEngine) c page w text,
       already_blocked w = false ->
       fst (probeHeadings page HEADING_SELECTORS [] w) = Ok text ->
       toLowerCase text = lower ->
       fst (detectSignInBlocked c page w) = Ok false.
Proof.
  intros H.
  assert (F : first_match SIGN_IN_BLOCK_PATTERNS lower = None).
  { apply first_match_none. intros p Hp.
    destruct (test (re p) lower) eqn:T; [exfalso | reflexivity].
    apply test_length in T.
    cbn in Hp. destruct Hp as [<- | [<- | [<- | [<- | [<- | []]]]]];
      cbn in T; lia. }
  split; [exact F |].
  intros engine c page w text B G <-. rewrite probeHeadings_eq in G. cbn [fst] in G.
  now rewrite (detect_no_match c page w B G F).
Qed.

Lemma short_text_never_matches_witness :
  first_match SIGN_IN_BLOCK_PATTERNS (js "we cant sign in") = None.
Proof.
  apply (@short_text_never_matches (js "we cant sign in")).
  cbn. lia.
Defined.

(** X9. An address made of white space only is not taken as missing: the
    function goes on and asks the parser about 'http://' alone, and what
    it hands back is then the parser's verdict. *)
Theorem blank_address_is_parsed (api : UrlApi) (proxy : AccountProxy) :
  url proxy <> [] ->
  forallb is_js_whitespace (url proxy) = true ->
  candidate (url proxy) = js "http://"
  /\ (forall err, new_URL api (js "http://") = Throw err ->
        buildPlaywrightProxy api proxy
        = (None, [InvalidProxyUrl (url proxy) (reason_of err)])).
Proof.
  intros U B.
  assert (C : candidate (url proxy) = js "http://").
  { unfold candidate. now rewrite (trim_whitespace _ B). }
  split; [exact C |].
  intros err P. unfold buildPlaywrightProxy. rewrite C, P.
  destruct (url proxy); [contradiction | reflexivity].
Qed.

Lemma blank_address_is_parsed_witness :
  buildPlaywrightProxy sample_api (sample_proxy "  " Z0 EmptyString EmptyString)
  = (None, [InvalidProxyUrl (js "  ") "Invalid URL"]).
Proof.
  destruct (@blank_address_is_parsed sample_api
              (sample_proxy "  " Z0 EmptyString EmptyString)) as [_ H];
    [discriminate | reflexivity |].
  apply (H (JsError "Invalid URL")). reflexivity.
Defined.
